(** * Session coordination layer of the christmas-tree application

  A shallow embedding of the socket.io session server (the registry of
  sessions, the message handlers and the WebRTC signalling relay) and of
  the two pieces of client logic that talk to it (the debounced
  [scene:update] effect and the pending-viewer queue), together with the
  properties that the design document states about them. *)

From Stdlib Require Import ZArith.
From stdpp Require Import base option list strings gmap fin_maps.

Open Scope string_scope.
Open Scope list_scope.

(** ** Insertion-ordered maps

  A JavaScript [Map] iterates in insertion order; [set] on a key that is
  already present overwrites the value and keeps the entry where it is,
  [set] on a new key appends, [delete] removes the entry.  The
  representation is an association list whose keys are pairwise distinct
  ([wf]). *)
Module OMap.
Section omap.
Context {K : Type} `{EqDecision K} {A : Type}.

Fixpoint get (k : K) (m : list (K * A)) : option A :=
  match m with
  | [] => None
  | (k', a) :: m' => if decide (k = k') then Some a else get k m'
  end.

Definition has (k : K) (m : list (K * A)) : bool :=
  match get k m with Some _ => true | None => false end.

Fixpoint set (k : K) (a : A) (m : list (K * A)) : list (K * A) :=
  match m with
  | [] => [(k, a)]
  | (k', a') :: m' =>
      if decide (k = k') then (k, a) :: m' else (k', a') :: set k a m'
  end.

Fixpoint delete (k : K) (m : list (K * A)) : list (K * A) :=
  match m with
  | [] => []
  | (k', a') :: m' =>
      if decide (k = k') then delete k m' else (k', a') :: delete k m'
  end.

Definition keys (m : list (K * A)) : list K := m.*1.
Definition values (m : list (K * A)) : list A := m.*2.

Definition wf (m : list (K * A)) : Prop := NoDup (keys m).
End omap.
End OMap.

(** ** The server: registry, handlers and relay (src/unnamed/part_001) *)
Module Server.
Section server.
(** Payload values are opaque to the server: blob fields, photo lists and
    WebRTC descriptors are forwarded or stored without being inspected. *)
Context {V : Type}.

Record User := mkUser { user_id : string; user_name : string }.

(** The merged scene blob is a JavaScript object used as a map from field
    names to values. *)
Record Session := mkSession {
  users : list (string * User);
  controllerId : option string;
  sceneState : option (gmap string V);
  createdAt : Z
}.

(** [sessions]: the process-wide [Map] from session id to session. *)
Definition Registry := list (string * Session).

(** Where an emission is addressed.  Rooms are socket.io's: a socket
    enters the room of a session with [socket.join(sessionId)] in the join
    handler, and every socket is alone in the room named by its own id, so
    that [io.to(id)] reaches that socket. *)
Inductive Target :=
| SocketEmit (sender : string)            (* socket.emit(...) *)
| IoTo (room : string)                    (* io.to(room).emit(...) *)
| SocketTo (room : string) (sender : string). (* socket.to(room).emit(...) *)

(** Events sent by the server, with their payloads. *)
Inductive Event :=
| SessionJoined (sessionId userId : string) (us : list User)
    (ctrl : option string) (scene : option (gmap string V))
| SessionUserJoined (user : User)
| SessionUserLeft (userId : string)
| SceneState (delta : gmap string V)
| PhotosUpdate (photos : V)
| ControlRequested (requesterId requesterName : string)
| ControlOffer (fromId fromName : string)
| ControlChanged (ctrl : string)
| SceneSync (scene : option (gmap string V))
| ControlDeclined (targetId targetName : string)
| ViewerJoin (viewerId : string)
| WebrtcOffer (from : string) (offer : V)
| WebrtcAnswer (from : string) (answer : V)
| WebrtcIce (from : string) (candidate : V).

Definition Emission : Type := Target * Event.

(** Messages received from a client socket. *)
Inductive Msg :=
| Join (sessionId name : string)
| SceneUpdate (sessionId : string) (delta : gmap string V)
| PhotosUpdateReq (sessionId : string) (photos : V)
| ControlRequest (sessionId : string)
| ControlOfferReq (sessionId targetId : string)
| ControlAccept (sessionId : string)
| ControlDecline (sessionId fromId : string)
| ViewerJoinReq (sessionId : string)
| WebrtcOfferReq (to : string) (offer : V)
| WebrtcAnswerReq (to : string) (answer : V)
| WebrtcIceReq (to : string) (candidate : V)
| Disconnect.

(** JavaScript truthiness of a [string | null]: [null] and the empty
    string are falsy. *)
Definition truthy (c : option string) : bool :=
  match c with
  | Some s => negb (String.eqb s EmptyString)
  | None => false
  end.

(** [x || null] on a string. *)
Definition or_null (s : string) : option string :=
  if String.eqb s EmptyString then None else Some s.

(** [session.controllerId === socket.id] *)
Definition is_controller (s : Session) (sender : string) : bool :=
  bool_decide (controllerId s = Some sender).

Definition set_users (us : list (string * User)) (s : Session) : Session :=
  mkSession us (controllerId s) (sceneState s) (createdAt s).
Definition set_controllerId (c : option string) (s : Session) : Session :=
  mkSession (users s) c (sceneState s) (createdAt s).
Definition set_sceneState (b : option (gmap string V)) (s : Session) : Session :=
  mkSession (users s) (controllerId s) b (createdAt s).

Definition fresh (now : Z) : Session := mkSession [] None None now.

(** [getSession]: look the session up, creating it when absent. *)
Definition getSession (now : Z) (sessionId : string) (σ : Registry)
  : Registry * Session :=
  match OMap.get sessionId σ with
  | Some s => (σ, s)
  | None => (OMap.set sessionId (fresh now) σ, fresh now)
  end.

Definition getUsersPayload (s : Session) : list User :=
  (fun u => mkUser (user_id u) (user_name u)) <$> OMap.values (users s).

(** [session.users.get(socket.id)?.name || dflt] *)
Definition name_or (s : Session) (sender dflt : string) : string :=
  match OMap.get sender (users s) with
  | Some u => if String.eqb (user_name u) EmptyString then dflt else user_name u
  | None => dflt
  end.

(** [session.sceneState || {}] *)
Definition blob_or_empty (s : Session) : gmap string V :=
  default ∅ (sceneState s).

Definition on_join (now : Z) (sender sessionId name : string) (σ : Registry)
  : Registry * list Emission :=
  let '(σ1, s0) := getSession now sessionId σ in
  let s1 := set_users (OMap.set sender (mkUser sender name) (users s0)) s0 in
  let s2 := if truthy (controllerId s1) then s1
            else set_controllerId (Some sender) s1 in
  (OMap.set sessionId s2 σ1,
   [ (SocketEmit sender,
      SessionJoined sessionId sender (getUsersPayload s2)
                    (controllerId s2) (sceneState s2));
     (SocketTo sessionId sender, SessionUserJoined (mkUser sender name)) ]).

Definition on_scene_update (sender sessionId : string) (delta : gmap string V)
    (σ : Registry) : Registry * list Emission :=
  match OMap.get sessionId σ with
  | None => (σ, [])
  | Some s =>
      if negb (is_controller s sender) then (σ, [])
      else
        (* { ...(session.sceneState || {}), ...sceneState } *)
        let s' := set_sceneState (Some (delta ∪ blob_or_empty s)) s in
        (OMap.set sessionId s' σ,
         [ (SocketTo sessionId sender, SceneState delta) ])
  end.

Definition on_photos_update (sender sessionId : string) (photos : V)
    (σ : Registry) : Registry * list Emission :=
  match OMap.get sessionId σ with
  | None => (σ, [])
  | Some s =>
      if negb (is_controller s sender) then (σ, [])
      else
        (* { ...(session.sceneState || {}), photos } *)
        let s' := set_sceneState (Some (<["photos" := photos]> (blob_or_empty s))) s in
        (OMap.set sessionId s' σ,
         [ (SocketTo sessionId sender, PhotosUpdate photos) ])
  end.

Definition on_control_request (sender sessionId : string) (σ : Registry)
  : Registry * list Emission :=
  match OMap.get sessionId σ with
  | None => (σ, [])
  | Some s =>
      match controllerId s with
      | Some c =>
          if truthy (Some c)
          then (σ, [ (IoTo c, ControlRequested sender (name_or s sender "Guest")) ])
          else (σ, [])
      | None => (σ, [])
      end
  end.

Definition on_control_offer (sender sessionId targetId : string) (σ : Registry)
  : Registry * list Emission :=
  match OMap.get sessionId σ with
  | None => (σ, [])
  | Some s =>
      if negb (is_controller s sender) then (σ, [])
      else (σ, [ (IoTo targetId, ControlOffer sender (name_or s sender "Host")) ])
  end.

Definition on_control_accept (sender sessionId : string) (σ : Registry)
  : Registry * list Emission :=
  match OMap.get sessionId σ with
  | None => (σ, [])
  | Some s =>
      let s' := set_controllerId (Some sender) s in
      (OMap.set sessionId s' σ,
       [ (IoTo sessionId, ControlChanged sender);
         (SocketEmit sender, SceneSync (sceneState s')) ])
  end.

Definition on_control_decline (sender sessionId fromId : string) (σ : Registry)
  : Registry * list Emission :=
  match OMap.get sessionId σ with
  | None => (σ, [])
  | Some s =>
      (σ, [ (IoTo fromId, ControlDeclined sender (name_or s sender "Guest")) ])
  end.

Definition on_viewer_join (sender sessionId : string) (σ : Registry)
  : Registry * list Emission :=
  match OMap.get sessionId σ with
  | None => (σ, [])
  | Some s =>
      match controllerId s with
      | Some c =>
          if truthy (Some c) then (σ, [ (IoTo c, ViewerJoin sender) ])
          else (σ, [])
      | None => (σ, [])
      end
  end.

(** The signalling relay. *)
Definition on_webrtc_offer (sender to : string) (offer : V) (σ : Registry)
  : Registry * list Emission :=
  (σ, [ (IoTo to, WebrtcOffer sender offer) ]).
Definition on_webrtc_answer (sender to : string) (answer : V) (σ : Registry)
  : Registry * list Emission :=
  (σ, [ (IoTo to, WebrtcAnswer sender answer) ]).
Definition on_webrtc_ice (sender to : string) (candidate : V) (σ : Registry)
  : Registry * list Emission :=
  (σ, [ (IoTo to, WebrtcIce sender candidate) ]).

(** The successor picked on a controller's departure:
    [session.users.values().next().value?.id || null]. *)
Definition nextController (us : list (string * User)) : option string :=
  match OMap.values us with
  | u :: _ => or_null (user_id u)
  | [] => None
  end.

(** Body of the [disconnect] loop for one registry entry.  The result is
    [None] when the entry is deleted from the registry. *)
Definition leave (sender sessionId : string) (s : Session)
  : option Session * list Emission :=
  if negb (OMap.has sender (users s)) then (Some s, [])
  else
    let wasController := is_controller s sender in
    let s1 := set_users (OMap.delete sender (users s)) s in
    let bye := [ (SocketTo sessionId sender, SessionUserLeft sender) ] in
    let '(s2, out) :=
      if wasController then
        let s2 := set_controllerId (nextController (users s1)) s1 in
        match controllerId s2 with
        | Some next =>
            (s2, [ (IoTo sessionId, ControlChanged next);
                   (IoTo next, SceneSync (sceneState s2)) ])
        | None => (s2, [])
        end
      else (s1, []) in
    (match users s2 with [] => None | _ :: _ => Some s2 end, bye ++ out).

(** [disconnect]: the loop over [sessions.entries()]. *)
Fixpoint on_disconnect (sender : string) (σ : Registry)
  : Registry * list Emission :=
  match σ with
  | [] => ([], [])
  | (sessionId, s) :: rest =>
      let '(kept, out) := leave sender sessionId s in
      let '(rest', out') := on_disconnect sender rest in
      (match kept with
       | Some s' => (sessionId, s') :: rest'
       | None => rest'
       end, out ++ out')
  end.

(** One message from socket [sender], received at time [now]. *)
Definition handle (now : Z) (sender : string) (m : Msg) (σ : Registry)
  : Registry * list Emission :=
  match m with
  | Join sessionId name => on_join now sender sessionId name σ
  | SceneUpdate sessionId delta => on_scene_update sender sessionId delta σ
  | PhotosUpdateReq sessionId photos => on_photos_update sender sessionId photos σ
  | ControlRequest sessionId => on_control_request sender sessionId σ
  | ControlOfferReq sessionId targetId => on_control_offer sender sessionId targetId σ
  | ControlAccept sessionId => on_control_accept sender sessionId σ
  | ControlDecline sessionId fromId => on_control_decline sender sessionId fromId σ
  | ViewerJoinReq sessionId => on_viewer_join sender sessionId σ
  | WebrtcOfferReq to offer => on_webrtc_offer sender to offer σ
  | WebrtcAnswerReq to answer => on_webrtc_answer sender to answer σ
  | WebrtcIceReq to candidate => on_webrtc_ice sender to candidate σ
  | Disconnect => on_disconnect sender σ
  end.

(** A run of the server: the messages are handled one at a time, each to
    completion, starting from a registry [σ]. *)
Definition Step : Type := Z * string * Msg.

Fixpoint run (σ : Registry) (tr : list Step) : Registry * list Emission :=
  match tr with
  | [] => (σ, [])
  | (now, sender, m) :: tr' =>
      let '(σ1, out) := handle now sender m σ in
      let '(σ2, out') := run σ1 tr' in
      (σ2, out ++ out')
  end.

(** *** Predicates on registries and runs *)

(** Every user is stored under its own id. *)
Definition ids_ok (s : Session) : Prop :=
  ∀ k u, (k, u) ∈ users s → user_id u = k.

(** The controller of a session, when there is one, is one of its
    users. *)
Definition controller_ok (s : Session) : Prop :=
  ∀ c, controllerId s = Some c → OMap.has c (users s) = true.

Definition session_inv (s : Session) : Prop := ids_ok s ∧ controller_ok s.
Definition registry_inv (σ : Registry) : Prop := ∀ p, p ∈ σ → session_inv p.2.

Definition controller_invariant (σ : Registry) : Prop :=
  ∀ sessionId s, OMap.get sessionId σ = Some s → controller_ok s.

Definition one_controller (σ : Registry) : Prop :=
  ∀ sessionId s c1 c2,
    OMap.get sessionId σ = Some s →
    is_controller s c1 = true → is_controller s c2 = true → c1 = c2.

(** Along the run, every [control:accept] that names an existing session
    comes from a socket that is a user of that session. *)
Fixpoint accepts_by_members (σ : Registry) (tr : list Step) : bool :=
  match tr with
  | [] => true
  | (now, sender, m) :: tr' =>
      match m with
      | ControlAccept sessionId =>
          match OMap.get sessionId σ with
          | Some s => OMap.has sender (users s)
          | None => true
          end
      | _ => true
      end && accepts_by_members (handle now sender m σ).1 tr'
  end.

(** socket.io never hands out an empty socket id. *)
Definition named_senders (tr : list Step) : bool :=
  forallb (fun st : Step => negb (String.eqb st.1.2 EmptyString)) tr.

(** Shape of the registries that the handlers build: keys are distinct,
    every user is stored under its own non-empty id, no session is empty,
    and every session has a controller, whose id is a non-empty string. *)
Definition wf_users (us : list (string * User)) : bool :=
  bool_decide (NoDup (OMap.keys us))
  && forallb (fun p : string * User =>
                bool_decide (user_id p.2 = p.1) && negb (String.eqb p.1 EmptyString)) us.

Definition wf_session (s : Session) : bool :=
  wf_users (users s)
  && match users s with [] => false | _ :: _ => true end
  && match controllerId s with
     | Some c => negb (String.eqb c EmptyString)
     | None => false
     end.

Definition wf_registry (σ : Registry) : bool :=
  bool_decide (NoDup (OMap.keys σ))
  && forallb (fun p : string * Session => wf_session p.2) σ.

(** *** Further vocabulary *)

(** The session that a message names; the relay messages and [disconnect]
    name none. *)
Definition session_of (m : Msg) : option string :=
  match m with
  | Join sessionId _ | SceneUpdate sessionId _ | PhotosUpdateReq sessionId _
  | ControlRequest sessionId | ControlOfferReq sessionId _
  | ControlAccept sessionId | ControlDecline sessionId _
  | ViewerJoinReq sessionId => Some sessionId
  | WebrtcOfferReq _ _ | WebrtcAnswerReq _ _ | WebrtcIceReq _ _ | Disconnect => None
  end.

(** Messages whose handlers only read the registry. *)
Definition reads_only (m : Msg) : bool :=
  match m with
  | ControlRequest _ | ControlOfferReq _ _ | ControlDecline _ _
  | ViewerJoinReq _ | WebrtcOfferReq _ _ | WebrtcAnswerReq _ _
  | WebrtcIceReq _ _ => true
  | _ => false
  end.

(** The socket is a user of no session. *)
Definition stranger (sender : string) (σ : Registry) : bool :=
  forallb (fun p : string * Session => negb (OMap.has sender (users p.2))) σ.

(** One [session:join] per entry of [l], in order; an entry is a socket id
    and a name. *)
Definition joins (now : Z) (sessionId : string) (l : list (string * string))
  : list Step :=
  (fun p : string * string => (now, p.1, Join sessionId p.2)) <$> l.
End server.
End Server.

(** ** The client: debounced [scene:update] (SessionClient.tsx)

  The effect that depends on [sceneState, rotationSpeed, isController,
  sessionId].  Time is a logical clock in milliseconds; [timers] is the
  browser's table of pending [setTimeout] callbacks, each holding the
  values its closure captured. *)
Module Debounce.
Section debounce.
(** [rotationSpeed] is a number that the client only stores, compares and
    sends. *)
Context {R : Type} `{EqDecision R}.

Inductive SceneState := CHAOS | FORMED | CAROUSEL | PHOTO.

#[export] Instance SceneState_eq_dec : EqDecision SceneState.
Proof. solve_decision. Defined.

(** The outbound [scene:update] message. *)
Record SceneUpdate := mkSceneUpdate {
  upd_sessionId : string;
  upd_sceneState : SceneState;
  upd_rotationSpeed : R
}.

Record Timer := mkTimer {
  timer_id : nat;
  deadline : Z;
  captured : SceneUpdate
}.

Record Client := mkClient {
  isController : bool;
  socketRef : bool;                     (* socketRef.current is non-null *)
  sessionId : string;
  sceneState : SceneState;
  rotationSpeed : R;
  sceneUpdateTimeoutRef : option nat;
  cleanup : bool;       (* the last run of the effect returned a cleanup *)
  timers : list Timer;
  nextTimer : nat                       (* next handle of setTimeout *)
}.

Definition delay : Z := 150.

(** [window.clearTimeout(id)] *)
Definition clearTimeout (id : nat) (ts : list Timer) : list Timer :=
  filter (fun tm => timer_id tm ≠ id) ts.

(** [if (sceneUpdateTimeoutRef.current)
      window.clearTimeout(sceneUpdateTimeoutRef.current)] *)
Definition clear_pending (c : Client) : Client :=
  match sceneUpdateTimeoutRef c with
  | Some (S id) =>
      mkClient (isController c) (socketRef c) (sessionId c) (sceneState c)
        (rotationSpeed c) (sceneUpdateTimeoutRef c) (cleanup c)
        (clearTimeout (S id) (timers c)) (nextTimer c)
  | _ => c
  end.

(** Body of the effect, run at time [now]. *)
Definition effect (now : Z) (c : Client) : Client :=
  if negb (isController c) || negb (socketRef c) then
    mkClient (isController c) (socketRef c) (sessionId c) (sceneState c)
      (rotationSpeed c) (sceneUpdateTimeoutRef c) false
      (timers c) (nextTimer c)
  else
    let c1 := clear_pending c in
    let id := nextTimer c1 in
    let tm := mkTimer id (now + delay)
                (mkSceneUpdate (sessionId c1) (sceneState c1) (rotationSpeed c1)) in
    mkClient (isController c1) (socketRef c1) (sessionId c1) (sceneState c1)
      (rotationSpeed c1) (Some id) true (timers c1 ++ [tm]) (S id).

(** A render in which a dependency changed: the previous cleanup runs,
    then the effect. *)
Definition rerun (now : Z) (c : Client) : Client :=
  effect now (if cleanup c then clear_pending c else c).

(** A local update of the scene state and rotation speed at time [now].
    React re-runs the effect only when a dependency differs from the
    previous render. *)
Definition change (now : Z) (v : SceneState * R) (c : Client) : Client :=
  if decide (v = (sceneState c, rotationSpeed c)) then c
  else
    rerun now
      (mkClient (isController c) (socketRef c) (sessionId c) v.1 v.2
         (sceneUpdateTimeoutRef c) (cleanup c) (timers c) (nextTimer c)).

(** [isController] is a dependency too: when the role changes the effect
    is re-run in the same way. *)
Definition role_change (now : Z) (b : bool) (c : Client) : Client :=
  if decide (b = isController c) then c
  else
    rerun now
      (mkClient b (socketRef c) (sessionId c) (sceneState c) (rotationSpeed c)
         (sceneUpdateTimeoutRef c) (cleanup c) (timers c) (nextTimer c)).

(** The clock reaches [T]: every timer that is due fires, in the order in
    which the timers were set, and emits what it captured if the socket
    is still there. *)
Definition fire (c : Client) (tm : Timer) : list (Z * SceneUpdate) :=
  if socketRef c then [(deadline tm, captured tm)] else [].

Definition advance (T : Z) (c : Client) : Client * list (Z * SceneUpdate) :=
  (mkClient (isController c) (socketRef c) (sessionId c) (sceneState c)
     (rotationSpeed c) (sceneUpdateTimeoutRef c) (cleanup c)
     (filter (fun tm => ¬ (deadline tm <= T)%Z) (timers c)) (nextTimer c),
   filter (fun tm => (deadline tm <= T)%Z) (timers c) ≫= fire c).

(** Local changes, each stamped with its time, followed by the clock
    running on to [T].  The result is the list of messages put on the
    socket, each with the time at which it was sent. *)
Fixpoint play (c : Client) (evs : list (Z * (SceneState * R)))
  : Client * list (Z * SceneUpdate) :=
  match evs with
  | [] => (c, [])
  | (t, v) :: evs' =>
      let '(c1, out) := advance t c in
      let '(c2, out') := play (change t v c1) evs' in
      (c2, out ++ out')
  end.

Definition sent (c : Client) (evs : list (Z * (SceneState * R))) (T : Z)
  : list (Z * SceneUpdate) :=
  let '(c1, out) := play c evs in
  out ++ (advance T c1).2.

(** A burst: every change differs from the values before it and arrives
    less than [delay] after the previous one. *)
Fixpoint burst_from (t0 : Z) (v0 : SceneState * R)
    (evs : list (Z * (SceneState * R))) : bool :=
  match evs with
  | [] => true
  | (t, v) :: evs' =>
      bool_decide (t0 <= t)%Z && bool_decide (t < t0 + delay)%Z
      && bool_decide (v ≠ v0) && burst_from t v evs'
  end.

(** A burst on client [c] is not empty; its first change differs from the
    values that [c] holds and comes at a moment when no timer of [c] is
    due (those have fired already). *)
Definition burst (c : Client) (evs : list (Z * (SceneState * R))) : bool :=
  match evs with
  | [] => false
  | (t, v) :: evs' =>
      forallb (fun tm => bool_decide (t < deadline tm)%Z) (timers c)
      && bool_decide (v ≠ (sceneState c, rotationSpeed c)) && burst_from t v evs'
  end.

(** What the effect maintains: a timer that is still pending is the one
    whose handle [sceneUpdateTimeoutRef] holds, and handles are positive. *)
Definition tidy (c : Client) : bool :=
  match nextTimer c with 0 => false | S _ => true end
  && match timers c with
     | [] => true
     | [tm] =>
         match sceneUpdateTimeoutRef c with
         | Some (S id) => Nat.eqb (timer_id tm) (S id)
         | _ => false
         end
     | _ => false
     end.

(** The client when the component mounts. *)
Definition mounted (sid : string) (s0 : SceneState) (r0 : R) : Client :=
  mkClient false false sid s0 r0 None false [] 1.

(** The client right after a change to [v] at time [t] has re-run the
    effect: one timer is pending, the one that [sceneUpdateTimeoutRef]
    holds, and it captured [v]. *)
Definition armed (sid : string) (t : Z) (v : SceneState * R) (id : nat) : Client :=
  mkClient true true sid v.1 v.2 (Some (S id)) true
    [mkTimer (S id) (t + delay) (mkSceneUpdate sid v.1 v.2)] (S (S id)).

(** The armed client after its timer has fired. *)
Definition spent (sid : string) (v : SceneState * R) (id : nat) : Client :=
  mkClient true true sid v.1 v.2 (Some (S id)) true [] (S (S id)).

(** Changes in the order of their times, each different from the values
    before it. *)
Fixpoint changes_from (t0 : Z) (v0 : SceneState * R)
    (evs : list (Z * (SceneState * R))) : bool :=
  match evs with
  | [] => true
  | (t, v) :: evs' =>
      bool_decide (t0 <= t)%Z && bool_decide (v ≠ v0) && changes_from t v evs'
  end.

Definition changes (c : Client) (evs : list (Z * (SceneState * R))) : bool :=
  match evs with
  | [] => true
  | (t, v) :: evs' =>
      forallb (fun tm => bool_decide (t < deadline tm)%Z) (timers c)
      && bool_decide (v ≠ (sceneState c, rotationSpeed c)) && changes_from t v evs'
  end.

(** The changes that are not followed by another change within [delay]:
    the change at [t] to [v], then [evs]. *)
Fixpoint survivors (t : Z) (v : SceneState * R)
    (evs : list (Z * (SceneState * R))) : list (Z * (SceneState * R)) :=
  match evs with
  | [] => [(t, v)]
  | (t', v') :: evs' =>
      (if decide (t + delay <= t')%Z then [(t, v)] else []) ++ survivors t' v' evs'
  end.

(** A pending timer was set by a run of the effect that returned a
    cleanup. *)
Definition orderly (c : Client) : bool :=
  tidy c && match timers c with [] => true | _ :: _ => cleanup c end.
End debounce.
End Debounce.

(** ** The client: pending-viewer queue (SessionClient.tsx) *)
Module Viewers.
Section viewers.
(** [negotiate v] is the outcome of [pc.createOffer()] followed by
    [pc.setLocalDescription(offer)] on the connection made for viewer [v]:
    the offer when both promises resolve, [None] when one rejects. *)
Context {O : Type} (negotiate : string -> option O).

Record Client := mkClient {
  isControllerRef : bool;
  canvasRef : bool;                      (* canvasRef.current is non-null *)
  localStreamRef : bool;            (* localStreamRef.current is non-null *)
  socketRef : bool;                      (* socketRef.current is non-null *)
  pendingViewersRef : list string;       (* a Set, in insertion order *)
  peerConnectionsRef : list (string * nat);  (* viewer id to connection *)
  nextPc : nat
}.

(** [socket.emit('webrtc:offer', { to, offer })] *)
Inductive Out := EmitOffer (to : string) (offer : O).

(** [Set.prototype.add] *)
Definition set_add (v : string) (l : list string) : list string :=
  if bool_decide (v ∈ l) then l else l ++ [v].

Definition closeControllerPeers (c : Client) : Client :=
  mkClient (isControllerRef c) (canvasRef c) (localStreamRef c) (socketRef c)
    [] [] (nextPc c).

Definition stopLocalStream (c : Client) : Client :=
  closeControllerPeers
    (mkClient (isControllerRef c) (canvasRef c) false (socketRef c)
       (pendingViewersRef c) (peerConnectionsRef c) (nextPc c)).

Definition createControllerPeerConnection (viewerId : string) (c : Client)
  : Client :=
  mkClient (isControllerRef c) (canvasRef c) (localStreamRef c) (socketRef c)
    (pendingViewersRef c)
    (OMap.set viewerId (nextPc c) (peerConnectionsRef c)) (S (nextPc c)).

Definition sendOfferToViewer (viewerId : string) (c : Client)
  : Client * list Out :=
  let c1 := createControllerPeerConnection viewerId c in
  match negotiate viewerId with
  | Some offer => (c1, [EmitOffer viewerId offer])
  | None => (c1, [])
  end.

(** [pending.forEach(viewerId => sendOfferToViewer(...))] *)
Fixpoint send_each (pending : list string) (c : Client) : Client * list Out :=
  match pending with
  | [] => (c, [])
  | v :: rest =>
      let '(c1, out) := sendOfferToViewer v c in
      let '(c2, out') := send_each rest c1 in
      (c2, out ++ out')
  end.

Definition flushPendingViewers (c : Client) : Client * list Out :=
  if negb (socketRef c) then (c, [])
  else
    let pending := pendingViewersRef c in
    send_each pending
      (mkClient (isControllerRef c) (canvasRef c) (localStreamRef c)
         (socketRef c) [] (peerConnectionsRef c) (nextPc c)).

(** The boolean of the result tells whether a stream was returned. *)
Definition ensureLocalStream (c : Client) : Client * list Out * bool :=
  if negb (canvasRef c) then (c, [], false)
  else if localStreamRef c then (c, [], true)
  else
    let '(c1, out) :=
      flushPendingViewers
        (mkClient (isControllerRef c) (canvasRef c) true (socketRef c)
           (pendingViewersRef c) (peerConnectionsRef c) (nextPc c)) in
    (c1, out, true).

(** Handler of [webrtc:viewer-join]. *)
Definition on_viewer_join (viewerId : string) (c : Client) : Client * list Out :=
  if negb (isControllerRef c) then (c, [])
  else
    let '(c1, out, stream) := ensureLocalStream c in
    if negb stream then
      (mkClient (isControllerRef c1) (canvasRef c1) (localStreamRef c1)
         (socketRef c1) (set_add viewerId (pendingViewersRef c1))
         (peerConnectionsRef c1) (nextPc c1), out)
    else
      let '(c2, out') := sendOfferToViewer viewerId c1 in
      (c2, out ++ out').

(** [onCanvasReady]: the scene hands over its canvas. *)
Definition onCanvasReady (c : Client) : Client * list Out :=
  let c1 := mkClient (isControllerRef c) true (localStreamRef c) (socketRef c)
              (pendingViewersRef c) (peerConnectionsRef c) (nextPc c) in
  if isControllerRef c1 then
    let '(c2, out, _) := ensureLocalStream c1 in (c2, out)
  else (c1, []).

(** A sequence of [webrtc:viewer-join] messages, handled in order. *)
Fixpoint viewer_joins (vs : list string) (c : Client) : Client * list Out :=
  match vs with
  | [] => (c, [])
  | v :: vs' =>
      let '(c1, out) := on_viewer_join v c in
      let '(c2, out') := viewer_joins vs' c1 in
      (c2, out ++ out')
  end.

Definition offer_to (o : Out) : string := match o with EmitOffer to _ => to end.

(** The client with its pending set replaced by [l]. *)
Definition with_pending (l : list string) (c : Client) : Client :=
  mkClient (isControllerRef c) (canvasRef c) (localStreamRef c) (socketRef c)
    l (peerConnectionsRef c) (nextPc c).

(** The pending set after the ids [vs] were added one after the other. *)
Definition queue_all (vs : list string) (l : list string) : list string :=
  foldl (fun acc v => set_add v acc) l vs.

Definition negotiated (v : string) : bool :=
  match negotiate v with Some _ => true | None => false end.

(** The effects that depend on [isController], in the order in which the
    component declares them: [isControllerRef] is set; then the local
    stream is started or stopped; then the peers of the role that was lost
    are closed.  (The inbound connection and the video element of the
    viewer role are not part of this state.) *)
Definition role_effects (b : bool) (c : Client) : Client * list Out :=
  let c1 := mkClient b (canvasRef c) (localStreamRef c) (socketRef c)
              (pendingViewersRef c) (peerConnectionsRef c) (nextPc c) in
  if b then
    let '(c2, out, _) := ensureLocalStream c1 in (c2, out)
  else (closeControllerPeers (stopLocalStream c1), []).

(** What can happen to the client, and a sequence of such events. *)
Inductive Ev :=
| EvViewerJoin (viewerId : string)
| EvCanvasReady
| EvRole (isController : bool).

Definition step (e : Ev) (c : Client) : Client * list Out :=
  match e with
  | EvViewerJoin v => on_viewer_join v c
  | EvCanvasReady => onCanvasReady c
  | EvRole b => role_effects b c
  end.

Fixpoint steps (es : list Ev) (c : Client) : Client * list Out :=
  match es with
  | [] => (c, [])
  | e :: es' =>
      let '(c1, out) := step e c in
      let '(c2, out') := steps es' c1 in
      (c2, out ++ out')
  end.

(** The client when the component mounts, its socket open. *)
Definition mounted : Client := mkClient false false false true [] [] 0.

(** The pending set and the keys of the connection map hold no id twice;
    a stream exists only with a canvas, and then nobody is pending; a
    client that is not the controller has no stream, no pending viewer and
    no outbound connection. *)
Definition coherent (c : Client) : bool :=
  bool_decide (NoDup (pendingViewersRef c))
  && bool_decide (NoDup (OMap.keys (peerConnectionsRef c)))
  && (if localStreamRef c
      then canvasRef c && bool_decide (pendingViewersRef c = [])
      else true)
  && (if isControllerRef c then true
      else negb (localStreamRef c)
           && bool_decide (pendingViewersRef c = [])
           && bool_decide (peerConnectionsRef c = [])).
End viewers.
End Viewers.

(** ** The client: gestures (SessionClient.tsx, and the gesture loop of the
    scene component in src/unnamed/part_002) *)
Module Gesture.
Import Debounce.

(** What [predictWebcam] does with a recognised gesture: four independent
    tests on the category name, each calling [onGesture]; [confident]
    stands for [score > 0.4]. *)
Definition dispatch (confident : bool) (name : string) : list SceneState :=
  if confident then
    (if String.eqb name "Open_Palm" then [CHAOS] else [])
    ++ (if String.eqb name "Closed_Fist" then [FORMED] else [])
    ++ (if String.eqb name "Victory" then [CAROUSEL] else [])
    ++ (if String.eqb name "Pointing_Up" then [PHOTO] else [])
  else [].

(** The updater that [handleGesture] passes to [setSceneState]. *)
Definition updater (newState prev : SceneState) : SceneState :=
  if bool_decide (newState = PHOTO) && bool_decide (prev ≠ CAROUSEL) then prev
  else if bool_decide (prev = PHOTO) && bool_decide (newState ≠ CAROUSEL) then prev
  else newState.

Definition handleGesture (isController : bool) (newState prev : SceneState)
  : SceneState :=
  if negb isController then prev else updater newState prev.

(** The scene state after a sequence of [onGesture] calls. *)
Definition gestures (isController : bool) (gs : list SceneState)
    (s0 : SceneState) : SceneState :=
  foldl (fun prev g => handleGesture isController g prev) s0 gs.
End Gesture.

(** ** The client: the roster (SessionClient.tsx)

  The user list, the controller and the pending control requests, as the
  handlers of the server's events maintain them. *)
Module Roster.
Import Server.

Record State := mkState {
  userId : option string;
  users : list User;
  controllerId : option string;
  pendingRequests : gmap string string
}.

(** [userId && controllerId === userId] *)
Definition isController (r : State) : bool :=
  match userId r with
  | Some u => negb (String.eqb u EmptyString) && bool_decide (controllerId r = Some u)
  | None => false
  end.

Definition on_session_joined (uid : string) (us : list User)
    (ctrl : option string) (r : State) : State :=
  mkState (Some uid) us ctrl (pendingRequests r).

Definition on_user_joined (u : User) (r : State) : State :=
  mkState (userId r) (users r ++ [u]) (controllerId r) (pendingRequests r).

Definition on_user_left (uid : string) (r : State) : State :=
  mkState (userId r) (filter (fun u => user_id u ≠ uid) (users r))
    (controllerId r) (delete uid (pendingRequests r)).

Definition on_control_requested (requesterId requesterName : string)
    (r : State) : State :=
  mkState (userId r) (users r) (controllerId r)
    (<[requesterId := requesterName]> (pendingRequests r)).

Definition on_control_changed (ctrl : string) (r : State) : State :=
  mkState (userId r) (users r) (Some ctrl) ∅.

(** The roster's reaction to an event of the server; the other events do
    not touch the roster. *)
Definition apply {V : Type} (e : @Event V) (r : State) : State :=
  match e with
  | SessionJoined _ uid us ctrl _ => on_session_joined uid us ctrl r
  | SessionUserJoined u => on_user_joined u r
  | SessionUserLeft uid => on_user_left uid r
  | ControlRequested rid rname => on_control_requested rid rname r
  | ControlChanged ctrl => on_control_changed ctrl r
  | _ => r
  end.

(** How often an id is listed. *)
Definition listed (uid : string) (r : State) : nat :=
  length (filter (fun u => user_id u = uid) (users r)).

(** The dependencies of the effect that asks for the stream:
    [controllerId, isController, sessionId, userId].  [sessionId] is a
    prop, the same at every render of a mounted component, and
    [isController] is computed from the two others; so two renders differ
    in a dependency exactly when they differ in this triple. *)
Definition deps (r : State) : option string * bool * option string :=
  (controllerId r, isController r, userId r).

(** The body of that effect: a client that knows its id and the
    controller, and is not the controller, asks for the stream.  The
    result is what it puts on the socket. *)
Definition announce_body {V : Type} (socket : bool) (sessionId : string)
    (r : State) : list (@Msg V) :=
  if negb socket || negb (truthy (controllerId r)) || negb (truthy (userId r))
  then []
  else if isController r then [] else [ViewerJoinReq sessionId].

(** The effect after the render that takes the state from [prev] to
    [next]: the body runs only when a dependency has changed. *)
Definition announce {V : Type} (socket : bool) (sessionId : string)
    (prev next : State) : list (@Msg V) :=
  if bool_decide (deps prev = deps next) then []
  else announce_body socket sessionId next.
End Roster.

(** ** The client: offers and answers (SessionClient.tsx)

  The handlers of [webrtc:offer] on a viewer and of [webrtc:answer] on the
  controller.  Of a connection only what the handlers themselves decide is
  kept: for which peer it was made, and whether the remote description
  was set on it. *)
Module Negotiation.
Section negotiation.
(** [answer_of offer] is the outcome, on the viewer, of
    [setRemoteDescription(offer)], [createAnswer()] and
    [setLocalDescription(answer)]: the answer, or [None] when one of the
    promises rejects. *)
Context {O A : Type} (answer_of : O → option A).

Record Viewer := mkViewer {
  v_isControllerRef : bool;
  viewerPeerRef : option string   (* the peer the inbound connection is for *)
}.

(** [socket.emit('webrtc:answer', { to, answer })] *)
Inductive Out := EmitAnswer (to : string) (answer : A).

(** Handler of [webrtc:offer]: [createViewerPeerConnection] closes the
    connection there is and installs a new one. *)
Definition on_offer (from : string) (offer : O) (w : Viewer) : Viewer * list Out :=
  if v_isControllerRef w then (w, [])
  else
    let w1 := mkViewer (v_isControllerRef w) (Some from) in
    match answer_of offer with
    | Some a => (w1, [EmitAnswer from a])
    | None => (w1, [])
    end.

(** The controller: its connections, and those on which the remote
    description has been set. *)
Record Controller := mkController {
  base : Viewers.Client;
  described : list nat
}.

(** Handler of [webrtc:answer]. *)
Definition on_answer (from : string) (answer : A) (c : Controller) : Controller :=
  if negb (Viewers.isControllerRef (base c)) then c
  else
    match OMap.get from (Viewers.peerConnectionsRef (base c)) with
    | None => c
    | Some pc => mkController (base c) (pc :: described c)
    end.
End negotiation.
End Negotiation.

(** ** The client: the scene it shows (SessionClient.tsx)

  A field that is [None] is absent from the payload, or [undefined] in the
  state. *)
Module Receiver.
Section receiver.
Context {R P : Type}.

Record Snapshot := mkSnapshot {
  snap_sceneState : option Debounce.SceneState;
  snap_rotationSpeed : option R;
  snap_photos : option P
}.

Record View := mkView {
  isControllerRef : bool;
  sceneState : option Debounce.SceneState;
  rotationSpeed : option R;
  photos : option P
}.

Definition or_keep {A} (new old : option A) : option A :=
  match new with Some a => Some a | None => old end.

(** Handler of [scene:state]. *)
Definition on_scene_state (d : Snapshot) (w : View) : View :=
  if isControllerRef w then w
  else mkView (isControllerRef w)
         (or_keep (snap_sceneState d) (sceneState w))
         (or_keep (snap_rotationSpeed d) (rotationSpeed w))
         (or_keep (snap_photos d) (photos w)).

(** Handler of [photos:update]. *)
Definition on_photos_update (p : P) (w : View) : View :=
  if isControllerRef w then w
  else mkView (isControllerRef w) (sceneState w) (rotationSpeed w) (Some p).

(** Handler of [scene:sync], and the part of [session:joined] that deals
    with the blob: scene state and rotation speed are taken from the blob
    as they are, the photos only when the blob has some. *)
Definition on_scene_sync (b : option Snapshot) (w : View) : View :=
  match b with
  | None => w
  | Some b =>
      mkView (isControllerRef w) (snap_sceneState b) (snap_rotationSpeed b)
        (or_keep (snap_photos b) (photos w))
  end.

(** The shallow merge of the server, on snapshots: [{ ...b, ...d }]. *)
Definition merge (d b : Snapshot) : Snapshot :=
  mkSnapshot (or_keep (snap_sceneState d) (snap_sceneState b))
    (or_keep (snap_rotationSpeed d) (snap_rotationSpeed b))
    (or_keep (snap_photos d) (snap_photos b)).
End receiver.
End Receiver.

(** ** The client: uploads (SessionClient.tsx) *)
Module Upload.
Section upload.
(** [compress f] is the outcome of [compressImage(f)]: the data URL, or
    [None] when the promise rejects. *)
Context {D : Type} (compress : string * D → option string).

(** The photo list shown and the status line.  A file is given by its
    MIME type and its content. *)
Record State := mkState {
  photos : list string;
  aiStatus : string
}.

(** [socketRef.current?.emit('photos:update', { sessionId, photos })] *)
Inductive Out := EmitPhotos (sessionId : string) (photos : list string).

Definition handleUploadFiles (isController socket : bool) (sessionId : string)
    (files : list (string * D)) (st : State) : State * list Out :=
  if negb isController then (st, [])
  else
    let fileArray := List.filter (fun f : string * D => String.prefix "image/" f.1) files in
    match mapM compress fileArray with
    | None => (mkState (photos st) "ERROR: COMPRESSION FAILED", [])
    | Some compressedPhotos =>
        match compressedPhotos with
        | [] => (mkState (photos st) "COMPRESSING IMAGES...", [])
        | _ :: _ =>
            (mkState compressedPhotos "UPLOAD COMPLETE",
             if socket then [EmitPhotos sessionId compressedPhotos] else [])
        end
    end.
End upload.
End Upload.

(** ** Payloads on the wire

  The values that the fields of a blob hold, the object that the
  controller sends in [scene:update] ([{ sceneState, rotationSpeed }]),
  and the fields that the client's handlers read from a blob. *)
Module Wire.
Section wire.
Context {R P : Type}.

Inductive Field :=
| FScene (s : Debounce.SceneState)
| FSpeed (r : R)
| FPhotos (p : P).

Definition payload (u : @Debounce.SceneUpdate R) : gmap string Field :=
  {[ "sceneState" := FScene (Debounce.upd_sceneState u);
     "rotationSpeed" := FSpeed (Debounce.upd_rotationSpeed u) ]}.

Definition encode (u : @Debounce.SceneUpdate R) : @Server.Msg Field :=
  Server.SceneUpdate (Debounce.upd_sessionId u) (payload u).

Definition decode (b : gmap string Field) : @Receiver.Snapshot R P :=
  Receiver.mkSnapshot
    (match b !! "sceneState" with Some (FScene s) => Some s | _ => None end)
    (match b !! "rotationSpeed" with Some (FSpeed r) => Some r | _ => None end)
    (match b !! "photos" with Some (FPhotos p) => Some p | _ => None end).
End wire.
End Wire.

(** ** Sample states *)
Module Samples.
Import Server.

(** A session with two users, Ann in control, and a blob. *)
Definition blob0 : gmap string string :=
  {[ "sceneState" := "FORMED"; "rotationSpeed" := "0.5" ]}.

Definition session0 : @Session string :=
  mkSession [("a", mkUser "a" "Ann"); ("b", mkUser "b" "Bob")]
    (Some "a") (Some blob0) 0.

Definition registry0 : @Registry string := [("s", session0)].

(** Ann opens a session, Bob joins, takes control and leaves. *)
Definition trace0 : list (@Step string) :=
  [ (0%Z, "a", Join "s" "Ann"); (1%Z, "b", Join "s" "Bob");
    (2%Z, "b", ControlAccept "s"); (3%Z, "b", Disconnect) ].

(** Ann opens a session; a socket that never joined accepts control. *)
Definition trace1 : list (@Step string) :=
  [ (0%Z, "a", Join "s" "Ann"); (1%Z, "x", ControlAccept "s") ].

(** The registry after [trace1]. *)
Definition session1 : @Session string :=
  mkSession [("a", mkUser "a" "Ann")] (Some "x") None 0.

Definition registry1 : @Registry string := [("s", session1)].

(** A client that took control 30 ms ago (the timer set then is still
    pending) and a burst of three changes. *)
Definition controller0 : @Debounce.Client Z :=
  Debounce.mkClient true true "s" Debounce.FORMED 0%Z (Some 1) true
    [Debounce.mkTimer 1 120 (Debounce.mkSceneUpdate "s" Debounce.FORMED 0%Z)] 2.

Definition burst0 : list (Z * (Debounce.SceneState * Z)) :=
  [ (0%Z, (Debounce.CHAOS, 1%Z)); (100%Z, (Debounce.CHAOS, 2%Z));
    (249%Z, (Debounce.FORMED, 2%Z)) ].

(** A controller client whose canvas is not there yet; negotiation
    always succeeds and the offer is named after the viewer. *)
Definition waiting : Viewers.Client :=
  Viewers.mkClient true false false true [] [] 0.

Definition offer_for (v : string) : option string := Some ("offer:" +:+ v).

(** A negotiation that rejects for viewer [v2]. *)
Definition offer_but_v2 (v : string) : option string :=
  if String.eqb v "v2" then None else Some ("offer:" +:+ v).

(** A second session beside [session0]. *)
Definition session2 : @Session string :=
  mkSession [("c", mkUser "c" "Cyd")] (Some "c") None 5.

Definition registry2 : @Registry string := [("s", session0); ("t", session2)].

(** Messages that only read the registry. *)
Definition trace3 : list (@Step string) :=
  [ (0%Z, "b", ControlRequest "s"); (1%Z, "a", ControlOfferReq "s" "b");
    (2%Z, "b", ControlDecline "s" "a"); (3%Z, "b", ViewerJoinReq "s");
    (4%Z, "a", WebrtcOfferReq "b" "sdp") ].

Definition delta0 : gmap string string := {[ "sceneState" := "CHAOS" ]}.

Definition session0_chaos : @Session string :=
  mkSession [("a", mkUser "a" "Ann"); ("b", mkUser "b" "Bob")]
    (Some "a") (Some (delta0 ∪ blob0)) 0.

(** Changes with gaps of 100, 200 and 200 ms. *)
Definition changes0 : list (Z * (Debounce.SceneState * Z)) :=
  [ (100%Z, (Debounce.CHAOS, 2%Z)); (300%Z, (Debounce.FORMED, 2%Z));
    (500%Z, (Debounce.CHAOS, 2%Z)) ].

(** A controller client whose capture runs. *)
Definition live : Viewers.Client :=
  Viewers.mkClient true true true true [] [] 0.

Definition events0 : list Viewers.Ev :=
  [ Viewers.EvRole true; Viewers.EvViewerJoin "v1"; Viewers.EvCanvasReady;
    Viewers.EvViewerJoin "v2"; Viewers.EvRole false ].

(** The roster of Ann's client in [session0]. *)
Definition roster0 : Roster.State :=
  Roster.mkState (Some "a") [mkUser "a" "Ann"; mkUser "b" "Bob"] (Some "a") ∅.

(** A registry whose blobs hold typed fields, and a viewer's screen. *)
Definition session_w : @Session (@Wire.Field Z (list string)) :=
  mkSession [("a", mkUser "a" "Ann"); ("b", mkUser "b" "Bob")]
    (Some "a") (Some {[ "photos" := Wire.FPhotos ["p1"; "p2"] ]}) 0.

Definition registry_w : @Registry (@Wire.Field Z (list string)) :=
  [("s", session_w)].

Definition update0 : @Debounce.SceneUpdate Z :=
  Debounce.mkSceneUpdate "s" Debounce.CAROUSEL 3%Z.

Definition view0 : @Receiver.View Z (list string) :=
  Receiver.mkView false (Some Debounce.FORMED) (Some 0%Z) (Some ["d1"]).

Definition answer_for (o : string) : option string := Some ("answer:" +:+ o).
End Samples.

(** * Properties *)

(** ** Insertion-ordered maps *)
Section omap_facts.
Context {K : Type} `{EqDecision K} {A : Type}.
Implicit Types (m : list (K * A)) (k : K) (a : A).

Lemma omap_get_set_eq m k a : OMap.get k (OMap.set k a m) = Some a.
Proof.
  induction m as [|[k' a'] m IH]; simpl.
  - by rewrite decide_True.
  - destruct (decide (k = k')) as [->|Hne]; simpl.
    + by rewrite decide_True.
    + by rewrite decide_False.
Qed.

Lemma omap_get_set_ne m k k' a :
  k ≠ k' → OMap.get k' (OMap.set k a m) = OMap.get k' m.
Proof.
  intros Hne. induction m as [|[k0 a0] m IH]; simpl.
  - by rewrite decide_False.
  - destruct (decide (k = k0)) as [->|Hk]; simpl.
    + by rewrite !decide_False.
    + destruct (decide (k' = k0)); [done | apply IH].
Qed.

Lemma omap_get_delete_eq m k : OMap.get k (OMap.delete k m) = None.
Proof.
  induction m as [|[k' a'] m IH]; simpl; [done|].
  destruct (decide (k = k')) as [->|Hne]; simpl; [done|].
  by rewrite decide_False.
Qed.

Lemma omap_get_delete_ne m k k' :
  k ≠ k' → OMap.get k' (OMap.delete k m) = OMap.get k' m.
Proof.
  intros Hne. induction m as [|[k0 a0] m IH]; simpl; [done|].
  destruct (decide (k = k0)) as [->|Hk]; simpl.
  - by rewrite decide_False.
  - destruct (decide (k' = k0)); [done | apply IH].
Qed.

Lemma omap_has_set_eq m k a : OMap.has k (OMap.set k a m) = true.
Proof. unfold OMap.has. by rewrite omap_get_set_eq. Qed.

Lemma omap_has_set m k k' a :
  OMap.has k' m = true → OMap.has k' (OMap.set k a m) = true.
Proof.
  unfold OMap.has. destruct (decide (k = k')) as [->|Hne].
  - by rewrite omap_get_set_eq.
  - by rewrite omap_get_set_ne.
Qed.

Lemma omap_has_delete_eq m k : OMap.has k (OMap.delete k m) = false.
Proof. unfold OMap.has. by rewrite omap_get_delete_eq. Qed.

Lemma omap_has_delete_ne m k k' :
  k ≠ k' → OMap.has k' (OMap.delete k m) = OMap.has k' m.
Proof. intros Hne. unfold OMap.has. by rewrite omap_get_delete_ne. Qed.

Lemma omap_get_elem m k a : OMap.get k m = Some a → (k, a) ∈ m.
Proof.
  induction m as [|[k' a'] m IH]; simpl; [done|].
  destruct (decide (k = k')) as [->|Hne].
  - intros [= ->]. left.
  - intros Hg. right. by apply IH.
Qed.

Lemma omap_get_key m k a : OMap.get k m = Some a → k ∈ OMap.keys m.
Proof.
  intros Hg. apply omap_get_elem in Hg. unfold OMap.keys.
  apply list_elem_of_fmap. by exists (k, a).
Qed.

Lemma omap_key_get m k : k ∈ OMap.keys m → is_Some (OMap.get k m).
Proof.
  induction m as [|[k' a'] m IH]; simpl.
  - by intros ?%elem_of_nil.
  - destruct (decide (k = k')) as [->|Hne]; [by eexists|].
    intros [?|?]%elem_of_cons; [done | by apply IH].
Qed.

Lemma omap_has_key m k : OMap.has k m = true ↔ k ∈ OMap.keys m.
Proof.
  unfold OMap.has. split.
  - destruct (OMap.get k m) eqn:Hg; [|done]. intros _. by eapply omap_get_key.
  - intros [a ->]%omap_key_get. done.
Qed.

Lemma omap_elem_set m k a p : p ∈ OMap.set k a m → p = (k, a) ∨ p ∈ m.
Proof.
  induction m as [|[k' a'] m IH]; simpl.
  - intros ->%list_elem_of_singleton. by left.
  - destruct (decide (k = k')) as [->|Hne].
    + intros [->|?]%elem_of_cons; [by left | right; by right].
    + intros [->|Hin]%elem_of_cons; [right; left|].
      destruct (IH Hin) as [->|?]; [by left | right; by right].
Qed.

Lemma omap_elem_delete m k p : p ∈ OMap.delete k m → p ∈ m ∧ p.1 ≠ k.
Proof.
  induction m as [|[k' a'] m IH]; simpl.
  - by intros ?%elem_of_nil.
  - destruct (decide (k = k')) as [->|Hne].
    + intros Hin. destruct (IH Hin). split; [by right | done].
    + intros [->|Hin]%elem_of_cons.
      * split; [left | simpl; congruence].
      * destruct (IH Hin). split; [by right | done].
Qed.

Lemma omap_keys_set_present m k a :
  OMap.has k m = true → OMap.keys (OMap.set k a m) = OMap.keys m.
Proof.
  unfold OMap.has, OMap.keys. induction m as [|[k' a'] m IH]; simpl; [done|].
  destruct (decide (k = k')) as [->|Hne]; simpl; [done|].
  intros Hh. f_equal. by apply IH.
Qed.

Lemma omap_keys_set_absent m k a :
  OMap.get k m = None → OMap.set k a m = m ++ [(k, a)].
Proof.
  induction m as [|[k' a'] m IH]; simpl; [done|].
  destruct (decide (k = k')) as [->|Hne]; [done|].
  intros Hg. f_equal. by apply IH.
Qed.

Lemma omap_keys_delete_subset m k k' :
  k' ∈ OMap.keys (OMap.delete k m) → k' ∈ OMap.keys m.
Proof.
  unfold OMap.keys. intros [p [-> Hp]]%list_elem_of_fmap.
  apply omap_elem_delete in Hp as [Hp _].
  apply list_elem_of_fmap. by exists p.
Qed.

Lemma omap_wf_set m k a : OMap.wf m → OMap.wf (OMap.set k a m).
Proof.
  unfold OMap.wf. destruct (OMap.get k m) eqn:Hg.
  - rewrite omap_keys_set_present; [done|]. unfold OMap.has. by rewrite Hg.
  - rewrite omap_keys_set_absent by done. unfold OMap.keys.
    rewrite fmap_app. simpl. intros Hnd. apply NoDup_app. split; [done|].
    split; [|apply NoDup_singleton].
    intros x Hx ->%list_elem_of_singleton.
    apply omap_key_get in Hx as [? Hx]. congruence.
Qed.

Lemma omap_wf_delete m k : OMap.wf m → OMap.wf (OMap.delete k m).
Proof.
  unfold OMap.wf. induction m as [|[k' a'] m IH]; simpl; [done|].
  intros [Hnin Hnd]%NoDup_cons.
  destruct (decide (k = k')) as [->|Hne]; [by apply IH|].
  simpl. apply NoDup_cons. split; [|by apply IH].
  intros Hin. apply Hnin. by eapply omap_keys_delete_subset.
Qed.

Lemma omap_wf_elem_get m k a : OMap.wf m → (k, a) ∈ m → OMap.get k m = Some a.
Proof.
  unfold OMap.wf. induction m as [|[k' a'] m IH]; simpl.
  - by intros _ ?%elem_of_nil.
  - intros [Hnin Hnd]%NoDup_cons [[= -> ->]|Hin]%elem_of_cons.
    + by rewrite decide_True.
    + rewrite decide_False; [by apply IH|].
      intros ->. apply Hnin. apply list_elem_of_fmap. by exists (k', a).
Qed.
End omap_facts.

(** ** The server *)
Import Server.

Section server_facts.
Context {V : Type}.
Implicit Types (σ : @Registry V) (s : @Session V) (m : @Msg V).

Lemma getUsersPayload_values s : getUsersPayload s = OMap.values (users s).
Proof.
  unfold getUsersPayload. induction (OMap.values (users s)) as [|[i n] l IH];
    simpl; [done | by f_equal].
Qed.

Lemma omap_set_same {A} (l : list (string * A)) k a :
  OMap.get k l = Some a → OMap.set k a l = l.
Proof.
  induction l as [|[k' a'] l IH]; simpl; [done|].
  destruct (decide (k = k')) as [->|Hne]; [by intros [= ->]|].
  intros Hg. f_equal. by apply IH.
Qed.

(** C8: the relay forwards [webrtc:offer], [webrtc:answer] and
    [webrtc:ice] to the id named [to]; the payload goes out as it came
    in, tagged with the sender's id as [from], and the registry is not
    touched. *)
Theorem relay_forwards_payload (now : Z) (sender to : string) (payload : V) σ :
  handle now sender (WebrtcOfferReq to payload) σ
    = (σ, [ (IoTo to, WebrtcOffer sender payload) ]) ∧
  handle now sender (WebrtcAnswerReq to payload) σ
    = (σ, [ (IoTo to, WebrtcAnswer sender payload) ]) ∧
  handle now sender (WebrtcIceReq to payload) σ
    = (σ, [ (IoTo to, WebrtcIce sender payload) ]).
Proof. done. Qed.

(** C2: on an existing session, [control:accept] from any sender makes
    the sender the controller whatever the state of the session (no
    offer is looked for), emits [control:changed] with the sender's id
    to the room of the session and [scene:sync] with the session's blob
    to the sender's socket alone. *)
Theorem control_accept_unconditional (now : Z) (sender sessionId : string) σ s :
  OMap.get sessionId σ = Some s →
  OMap.get sessionId (handle now sender (ControlAccept sessionId) σ).1
    = Some (mkSession (users s) (Some sender) (sceneState s) (createdAt s)) ∧
  (∀ other, other ≠ sessionId →
     OMap.get other (handle now sender (ControlAccept sessionId) σ).1
       = OMap.get other σ) ∧
  (handle now sender (ControlAccept sessionId) σ).2
    = [ (IoTo sessionId, ControlChanged sender);
        (SocketEmit sender, SceneSync (sceneState s)) ].
Proof.
  intros Hg. simpl. unfold on_control_accept. rewrite Hg. simpl.
  split; [apply omap_get_set_eq|]. split; [|done].
  intros other Hne. by apply omap_get_set_ne.
Qed.

(** C4: a [scene:update], [photos:update] or [control:offer] whose
    session id is not in the registry, or whose sender is not the
    controller of the session, leaves the registry as it is and emits
    nothing at all: no broadcast and no reply to the sender. *)
Theorem unauthorized_dropped (now : Z) (sender sessionId : string) σ :
  (OMap.get sessionId σ = None ∨
   ∃ s, OMap.get sessionId σ = Some s ∧ controllerId s ≠ Some sender) →
  (∀ delta, handle now sender (SceneUpdate sessionId delta) σ = (σ, [])) ∧
  (∀ photos, handle now sender (PhotosUpdateReq sessionId photos) σ = (σ, [])) ∧
  (∀ targetId, handle now sender (ControlOfferReq sessionId targetId) σ = (σ, [])).
Proof.
  intros Hcase. simpl.
  unfold on_scene_update, on_photos_update, on_control_offer, is_controller.
  destruct Hcase as [-> | (s & -> & Hc)]; [done|].
  rewrite bool_decide_eq_false_2 by done. done.
Qed.

(** A field of [session.sceneState || {}] is the field of the stored blob,
    and is absent when the stored blob is null. *)
Lemma blob_or_empty_lookup s f :
  blob_or_empty s !! f = sceneState s ≫= (.!! f).
Proof. unfold blob_or_empty. by destruct (sceneState s). Qed.

(** C5: an authorised [scene:update] stores the shallow merge of the
    previous blob and the delta: a field of the delta takes the delta's
    value, any other field keeps the value it had in the session's
    [sceneState] before the message (and stays absent when it was absent
    there, or when that blob was null).  An authorised [photos:update]
    stores the previous blob with the field [photos] replaced and every
    other field as it was in the session's [sceneState].  Users,
    controller and creation time are not touched. *)
Theorem scene_update_shallow_merge (now : Z) (sender sessionId : string) σ s
    (delta : gmap string V) (photos : V) :
  OMap.get sessionId σ = Some s →
  controllerId s = Some sender →
  (∃ blob,
     OMap.get sessionId (handle now sender (SceneUpdate sessionId delta) σ).1
       = Some (mkSession (users s) (controllerId s) (Some blob) (createdAt s)) ∧
     (∀ f v, delta !! f = Some v → blob !! f = Some v) ∧
     (∀ f, delta !! f = None → blob !! f = sceneState s ≫= (.!! f))) ∧
  (∃ blob,
     OMap.get sessionId (handle now sender (PhotosUpdateReq sessionId photos) σ).1
       = Some (mkSession (users s) (controllerId s) (Some blob) (createdAt s)) ∧
     blob !! "photos" = Some photos ∧
     (∀ f, f ≠ "photos" → blob !! f = sceneState s ≫= (.!! f))).
Proof.
  intros Hg Hc. simpl. unfold on_scene_update, on_photos_update, is_controller.
  rewrite Hg, bool_decide_eq_true_2 by done. simpl. split.
  - exists (delta ∪ blob_or_empty s). split; [apply omap_get_set_eq|]. split.
    + intros f v Hf. by apply lookup_union_Some_l.
    + intros f Hf. rewrite <- blob_or_empty_lookup. by apply lookup_union_r.
  - exists (<["photos" := photos]> (blob_or_empty s)).
    split; [apply omap_get_set_eq|]. split.
    + apply lookup_insert_eq.
    + intros f Hf. rewrite <- blob_or_empty_lookup. by apply lookup_insert_ne.
Qed.

(** C6: [session:join] creates the session when the id is new (no users,
    no controller, no blob), stores the caller under its socket id, makes
    the caller controller when the session had none, answers the caller
    with [session:joined] carrying its id, the whole user list, the
    controller and the blob, and tells the rest of the room
    [session:user-joined] with the caller's id and name only. *)
Theorem join_creates_and_announces (now : Z) (sender sessionId name : string) σ :
  let before := default (fresh now) (OMap.get sessionId σ) in
  let after := handle now sender (Join sessionId name) σ in
  ∃ s',
    OMap.get sessionId after.1 = Some s' ∧
    (OMap.get sessionId σ = None →
       s' = mkSession [(sender, mkUser sender name)] (Some sender) None now) ∧
    users s' = OMap.set sender (mkUser sender name) (users before) ∧
    OMap.get sender (users s') = Some (mkUser sender name) ∧
    (controllerId before = None → controllerId s' = Some sender) ∧
    sceneState s' = sceneState before ∧
    after.2 =
      [ (SocketEmit sender,
         SessionJoined sessionId sender (OMap.values (users s'))
                       (controllerId s') (sceneState s'));
        (SocketTo sessionId sender, SessionUserJoined (mkUser sender name)) ].
Proof.
  simpl. unfold on_join, getSession.
  destruct (OMap.get sessionId σ) as [s|] eqn:Hg; simpl.
  - eexists. split; [apply omap_get_set_eq|].
    rewrite getUsersPayload_values.
    destruct (truthy (controllerId s)) eqn:Ht; simpl;
      (split; [done|]); (split; [done|]);
      (split; [apply omap_get_set_eq|]); (split; [|done]).
    + intros Hc. by rewrite Hc in Ht.
    + done.
  - eexists. split; [apply omap_get_set_eq|]. simpl.
    split; [done|]. split; [done|]. rewrite decide_True by done. done.
Qed.

(** C10: a [session:join] from a socket that is already a user of the
    session adds no entry and moves none (the key sequence of [users] is
    the same), stores the new name under the socket's id and leaves every
    other user alone, keeps the controller, adds no session, and still
    answers with the full [session:joined]; when the name is the stored
    one the registry is exactly what it was. *)
Theorem rejoin_idempotent (now : Z) (sender sessionId name c : string) σ s :
  OMap.get sessionId σ = Some s →
  OMap.has sender (users s) = true →
  controllerId s = Some c →
  c ≠ EmptyString →
  let after := handle now sender (Join sessionId name) σ in
  OMap.keys after.1 = OMap.keys σ ∧
  (∃ s',
     OMap.get sessionId after.1 = Some s' ∧
     OMap.keys (users s') = OMap.keys (users s) ∧
     OMap.get sender (users s') = Some (mkUser sender name) ∧
     (∀ k, k ≠ sender → OMap.get k (users s') = OMap.get k (users s)) ∧
     controllerId s' = Some c ∧
     sceneState s' = sceneState s ∧
     after.2 =
       [ (SocketEmit sender,
          SessionJoined sessionId sender (OMap.values (users s'))
                        (Some c) (sceneState s));
         (SocketTo sessionId sender, SessionUserJoined (mkUser sender name)) ]) ∧
  (OMap.get sender (users s) = Some (mkUser sender name) → after.1 = σ).
Proof.
  intros Hg Hm Hc Hne. simpl. unfold on_join, getSession. rewrite Hg. simpl.
  assert (truthy (controllerId s) = true) as Ht.
  { rewrite Hc. simpl. apply negb_true_iff. by apply String.eqb_neq. }
  rewrite Ht. simpl. split; [|split].
  - apply omap_keys_set_present. unfold OMap.has. by rewrite Hg.
  - eexists. split; [apply omap_get_set_eq|]. simpl.
    split; [by apply omap_keys_set_present|].
    split; [apply omap_get_set_eq|].
    split; [intros k Hk; by apply omap_get_set_ne|].
    rewrite getUsersPayload_values. simpl. by rewrite Hc.
  - intros Hsame. rewrite (omap_set_same (users s)) by done.
    apply omap_set_same. rewrite Hg. by destruct s.
Qed.

(** *** The controller invariant along runs *)

Lemma registry_inv_get σ sessionId s :
  registry_inv σ → OMap.get sessionId σ = Some s → session_inv s.
Proof. intros Hinv Hg. apply omap_get_elem in Hg. apply (Hinv _ Hg). Qed.

Lemma registry_inv_set σ sessionId s :
  registry_inv σ → session_inv s → registry_inv (OMap.set sessionId s σ).
Proof.
  intros Hinv Hs p Hp. apply omap_elem_set in Hp as [->|Hp]; [done|].
  by apply Hinv.
Qed.

Lemma session_inv_fresh now : session_inv (@fresh V now).
Proof.
  split.
  - intros k u Hin. simpl in Hin. by apply elem_of_nil in Hin.
  - by intros c.
Qed.

Lemma ids_ok_set s sender name :
  ids_ok s → ids_ok (set_users (OMap.set sender (mkUser sender name) (users s)) s).
Proof.
  intros Hids k u Hin. simpl in Hin.
  apply omap_elem_set in Hin as [[= -> ->]|Hin]; [done|]. by apply Hids.
Qed.

Lemma ids_ok_delete s sender :
  ids_ok s → ids_ok (set_users (OMap.delete sender (users s)) s).
Proof.
  intros Hids k u Hin. simpl in Hin.
  apply omap_elem_delete in Hin as [Hin _]. by apply Hids.
Qed.

Lemma nextController_member (us : list (string * User)) next :
  (∀ k u, (k, u) ∈ us → user_id u = k) →
  nextController us = Some next → OMap.has next us = true.
Proof.
  intros Hids. unfold nextController, or_null.
  destruct us as [|[k u] us]; simpl; [done|].
  destruct (String.eqb (user_id u) EmptyString); [done|]. intros [= <-].
  rewrite (Hids k u) by left. unfold OMap.has. simpl. by rewrite decide_True.
Qed.

Lemma leave_inv sender sessionId s s' :
  session_inv s → (leave sender sessionId s).1 = Some s' → session_inv s'.
Proof.
  intros [Hids Hctrl]. unfold leave.
  destruct (OMap.has sender (users s)) eqn:Hm; simpl; [|by intros [= <-]].
  pose proof (ids_ok_delete s sender Hids) as Hids'.
  destruct (is_controller s sender) eqn:Hc.
  - simpl.
    destruct (nextController (OMap.delete sender (users s))) as [next|] eqn:Hn;
      simpl;
      (destruct (OMap.delete sender (users s)) as [|p us] eqn:Hd; [done|]);
      intros [= <-]; (split; [done|]); intros c; simpl; [|done].
    intros [= <-]. apply nextController_member in Hn; [done|].
    intros k u Hin. by apply Hids'.
  - simpl. destruct (OMap.delete sender (users s)) as [|p us] eqn:Hd; [done|].
    intros [= <-]. split; [done|]. intros c Hcc. simpl in *.
    rewrite <- Hd. rewrite omap_has_delete_ne; [by apply Hctrl|].
    intros <-. unfold is_controller in Hc.
    by rewrite bool_decide_eq_true_2 in Hc.
Qed.

Lemma on_disconnect_inv sender σ :
  registry_inv σ → registry_inv (on_disconnect sender σ).1.
Proof.
  induction σ as [|[sessionId s] σ IH]; intros Hinv; simpl; [done|].
  destruct (leave sender sessionId s) as [kept out] eqn:Hl.
  destruct (on_disconnect sender σ) as [rest out'] eqn:Hd. simpl in *.
  assert (registry_inv rest) as Hrest.
  { apply IH. intros p Hp. apply Hinv. by right. }
  destruct kept as [s'|]; simpl; [|done].
  intros p [->|Hp]%elem_of_cons; [|by apply Hrest]. simpl.
  apply (leave_inv sender sessionId s); [apply (Hinv (sessionId, s)); left|].
  by rewrite Hl.
Qed.

Lemma handle_inv now sender m σ :
  registry_inv σ →
  accepts_by_members σ [(now, sender, m)] = true →
  registry_inv (handle now sender m σ).1.
Proof.
  intros Hinv Hacc. destruct m; simpl in *; try done.
  - (* session:join *)
    unfold on_join, getSession.
    destruct (OMap.get sessionId σ) as [s|] eqn:Hg; simpl.
    + destruct (registry_inv_get _ _ _ Hinv Hg) as [Hids Hctrl].
      apply registry_inv_set; [done|].
      destruct (truthy (controllerId s)) eqn:Ht; simpl.
      * split; [by apply ids_ok_set|]. intros c Hc. simpl in *.
        apply omap_has_set. by apply Hctrl.
      * split; [by apply (ids_ok_set s)|]. intros c [= <-]. simpl.
        apply omap_has_set_eq.
    + apply registry_inv_set.
      { apply registry_inv_set; [done | apply session_inv_fresh]. }
      split.
      * intros k u Hin. simpl in Hin.
        apply list_elem_of_singleton in Hin as [= -> ->]. done.
      * intros c [= <-]. simpl. unfold OMap.has. simpl. by rewrite decide_True.
  - (* scene:update *)
    unfold on_scene_update.
    destruct (OMap.get sessionId σ) as [s|] eqn:Hg; [|done].
    destruct (is_controller s sender); simpl; [|done].
    apply registry_inv_set; [done|]. apply (registry_inv_get _ _ _ Hinv Hg).
  - (* photos:update *)
    unfold on_photos_update.
    destruct (OMap.get sessionId σ) as [s|] eqn:Hg; [|done].
    destruct (is_controller s sender); simpl; [|done].
    apply registry_inv_set; [done|]. apply (registry_inv_get _ _ _ Hinv Hg).
  - (* control:request *)
    unfold on_control_request.
    destruct (OMap.get sessionId σ) as [s|]; [|done].
    destruct (controllerId s) as [c|]; [|done]. by destruct (truthy (Some c)).
  - (* control:offer *)
    unfold on_control_offer.
    destruct (OMap.get sessionId σ) as [s|]; [|done].
    by destruct (is_controller s sender).
  - (* control:accept *)
    unfold on_control_accept.
    destruct (OMap.get sessionId σ) as [s|] eqn:Hg; [|done]. simpl.
    apply registry_inv_set; [done|].
    destruct (registry_inv_get _ _ _ Hinv Hg) as [Hids Hctrl].
    split; [done|]. intros c [= <-]. simpl.
    by rewrite andb_true_r in Hacc.
  - (* control:decline *)
    unfold on_control_decline. by destruct (OMap.get sessionId σ).
  - (* webrtc:viewer-join *)
    unfold on_viewer_join.
    destruct (OMap.get sessionId σ) as [s|]; [|done].
    destruct (controllerId s) as [c|]; [|done]. by destruct (truthy (Some c)).
  - (* disconnect *)
    by apply on_disconnect_inv.
Qed.

Lemma run_inv σ tr :
  registry_inv σ → accepts_by_members σ tr = true → registry_inv (run σ tr).1.
Proof.
  revert σ. induction tr as [|[[now sender] m] tr IH]; intros σ Hinv Hacc;
    simpl; [done|].
  simpl in Hacc. apply andb_true_iff in Hacc as [Hhd Htl].
  destruct (handle now sender m σ) as [σ1 out] eqn:Hh.
  specialize (IH σ1). destruct (run σ1 tr) as [σ2 out'] eqn:Hr. simpl in *.
  apply IH; [|done].
  replace σ1 with (handle now sender m σ).1 by by rewrite Hh.
  apply handle_inv; [done|]. simpl. by rewrite Hhd.
Qed.

(** C1, as the code has it: along every run from the empty registry in
    which each [control:accept] naming an existing session is sent by a
    user of that session, every session's controller is null or a key of
    its [users], and no session has two controllers. *)
Theorem controller_is_member (tr : list (@Step V)) :
  accepts_by_members [] tr = true →
  controller_invariant (run [] tr).1 ∧ one_controller (run [] tr).1.
Proof.
  intros Hacc. split.
  - intros sessionId s Hg.
    assert (registry_inv (run (V:=V) [] tr).1) as Hinv.
    { apply run_inv; [|done]. by intros p ?%elem_of_nil. }
    apply (registry_inv_get _ _ _ Hinv Hg).
  - intros sessionId s c1 c2 _ H1 H2. unfold is_controller in *.
    apply bool_decide_eq_true in H1, H2. congruence.
Qed.

(** *** Disconnection *)

Lemma wf_users_spec (us : list (string * User)) :
  wf_users us = true ↔
  OMap.wf us ∧ ∀ k u, (k, u) ∈ us → user_id u = k ∧ k ≠ EmptyString.
Proof.
  unfold wf_users, OMap.wf.
  rewrite andb_true_iff, bool_decide_eq_true, forallb_forall.
  split; intros [Hnd Hall]; (split; [done|]).
  - intros k u Hin. apply list_elem_of_In, Hall in Hin. simpl in Hin.
    apply andb_true_iff in Hin as [Hid Hk].
    apply bool_decide_eq_true in Hid. apply negb_true_iff, String.eqb_neq in Hk.
    done.
  - intros [k u] Hin. apply list_elem_of_In, Hall in Hin as [Hid Hk]. simpl.
    apply andb_true_iff. split; [by apply bool_decide_eq_true|].
    by apply negb_true_iff, String.eqb_neq.
Qed.

Lemma wf_registry_spec σ :
  wf_registry σ = true ↔
  OMap.wf σ ∧ ∀ sessionId s, (sessionId, s) ∈ σ → wf_session s = true.
Proof.
  unfold wf_registry, OMap.wf.
  rewrite andb_true_iff, bool_decide_eq_true, forallb_forall.
  split; intros [Hnd Hall]; (split; [done|]).
  - intros sessionId s Hin. by apply list_elem_of_In, Hall in Hin.
  - intros [sessionId s] Hin. by apply list_elem_of_In, Hall in Hin.
Qed.

Lemma leave_removes sender sessionId s s' :
  (leave sender sessionId s).1 = Some s' → OMap.has sender (users s') = false.
Proof.
  unfold leave. destruct (OMap.has sender (users s)) eqn:Hm; simpl.
  - destruct (is_controller s sender); simpl.
    + destruct (nextController (OMap.delete sender (users s))); simpl;
        (destruct (OMap.delete sender (users s)) eqn:Hd; [done|]);
        intros [= <-]; simpl; rewrite <- Hd; apply omap_has_delete_eq.
    + destruct (OMap.delete sender (users s)) eqn:Hd; [done|].
      intros [= <-]. simpl. rewrite <- Hd. apply omap_has_delete_eq.
  - by intros [= <-].
Qed.

Lemma on_disconnect_elem sender σ p :
  p ∈ (on_disconnect sender σ).1 →
  ∃ s, (p.1, s) ∈ σ ∧ (leave sender p.1 s).1 = Some p.2.
Proof.
  induction σ as [|[sessionId s] σ IH]; simpl; [by intros ?%elem_of_nil|].
  destruct (leave sender sessionId s) as [kept out] eqn:Hl.
  destruct (on_disconnect sender σ) as [rest out'] eqn:Hd. simpl in *.
  assert (p ∈ rest → ∃ s0, (p.1, s0) ∈ (sessionId, s) :: σ
                            ∧ (leave sender p.1 s0).1 = Some p.2) as Hrest.
  { intros Hp. destruct (IH Hp) as (s0 & Hin & Hs0). exists s0. split; [by right | done]. }
  destruct kept as [s'|]; [|done].
  intros [->|Hp]%elem_of_cons; [|by apply Hrest].
  exists s. simpl. split; [left | by rewrite Hl].
Qed.

Lemma on_disconnect_keys sender σ k :
  k ∈ OMap.keys (on_disconnect sender σ).1 → k ∈ OMap.keys σ.
Proof.
  unfold OMap.keys. intros [p [-> Hp]]%list_elem_of_fmap.
  apply on_disconnect_elem in Hp as (s & Hin & _).
  apply list_elem_of_fmap. by exists (p.1, s).
Qed.

Lemma on_disconnect_get sender σ sessionId :
  OMap.wf σ →
  OMap.get sessionId (on_disconnect sender σ).1
    = OMap.get sessionId σ ≫= (λ s, (leave sender sessionId s).1).
Proof.
  unfold OMap.wf. induction σ as [|[k s] σ IH]; simpl; [done|].
  intros [Hnin Hnd]%NoDup_cons. specialize (IH Hnd).
  destruct (leave sender k s) as [kept out] eqn:Hl.
  destruct (on_disconnect sender σ) as [rest out'] eqn:Hd. simpl in *.
  destruct (decide (sessionId = k)) as [->|Hne]; simpl.
  - rewrite Hl. simpl. destruct kept as [s'|]; simpl; [by rewrite decide_True|].
    destruct (OMap.get k rest) eqn:Hg; [|done].
    exfalso. apply Hnin. apply (on_disconnect_keys sender). rewrite Hd. simpl.
    by eapply omap_get_key.
  - destruct kept as [s'|]; simpl; [by rewrite decide_False|done].
Qed.

Lemma on_disconnect_out sender σ :
  (on_disconnect sender σ).2 = σ ≫= (λ p, (leave sender p.1 p.2).2).
Proof.
  induction σ as [|[k s] σ IH]; simpl; [done|].
  destruct (leave sender k s) as [kept out].
  destruct (on_disconnect sender σ) as [rest out']. simpl in *. by f_equal.
Qed.

(** C3, as the code has it: when the controller of a session, one of its
    users, disconnects:
    the socket is a user of no session afterwards; what the server emits
    is, session by session in registry order, what the loop body emits;
    if users remain in the session, the first of them in insertion order
    becomes controller, and the loop body emits [session:user-left] to
    the others, [control:changed] with the successor's id to the room and
    then [scene:sync] with the blob to the successor's id and nowhere
    else; if none remains the session is gone from the registry. *)
Theorem controller_disconnect (now : Z) (sender sessionId : string) σ s :
  wf_registry σ = true →
  OMap.get sessionId σ = Some s →
  controllerId s = Some sender →
  OMap.has sender (users s) = true →
  let after := handle now sender Disconnect σ in
  (∀ other s', OMap.get other after.1 = Some s' →
     OMap.has sender (users s') = false) ∧
  after.2 = σ ≫= (λ p, (leave sender p.1 p.2).2) ∧
  match OMap.delete sender (users s) with
  | [] =>
      OMap.get sessionId after.1 = None ∧
      (leave sender sessionId s).2
        = [ (SocketTo sessionId sender, SessionUserLeft sender) ]
  | (k, u) :: rest =>
      OMap.get sessionId after.1
        = Some (mkSession ((k, u) :: rest) (Some k) (sceneState s) (createdAt s)) ∧
      (leave sender sessionId s).2
        = [ (SocketTo sessionId sender, SessionUserLeft sender);
            (IoTo sessionId, ControlChanged k);
            (IoTo k, SceneSync (sceneState s)) ]
  end.
Proof.
  intros Hwf Hg Hc Hm. simpl.
  apply wf_registry_spec in Hwf as [Hnd Hall].
  split; [|split; [apply on_disconnect_out|]].
  - intros other s' Hg'. apply omap_get_elem, on_disconnect_elem in Hg'.
    destruct Hg' as (s0 & _ & Hl). by apply leave_removes in Hl.
  - rewrite on_disconnect_get, Hg by done. simpl.
    unfold leave, is_controller. rewrite Hm, bool_decide_eq_true_2 by done.
    simpl. destruct (OMap.delete sender (users s)) as [|[k u] rest] eqn:Hd;
      simpl; [done|].
    assert (user_id u = k ∧ k ≠ EmptyString) as [Hu Hk].
    { pose proof (Hall _ _ (omap_get_elem _ _ _ Hg)) as Hs.
      unfold wf_session in Hs. apply andb_true_iff in Hs as [Hs _].
      apply andb_true_iff in Hs as [Hs _].
      apply wf_users_spec in Hs as [_ Hs]. apply Hs.
      assert ((k, u) ∈ OMap.delete sender (users s)) as Hin by (rewrite Hd; left).
      by apply omap_elem_delete in Hin as [Hin _]. }
    unfold nextController, or_null. simpl. apply String.eqb_neq in Hk.
    rewrite Hu, Hk. simpl. done.
Qed.

(** *** Registries built by the handlers are well formed *)

Lemma omap_set_set {A} (l : list (string * A)) k a b :
  OMap.set k b (OMap.set k a l) = OMap.set k b l.
Proof.
  induction l as [|[k' a'] l IH]; simpl.
  - by rewrite decide_True.
  - destruct (decide (k = k')) as [->|Hne]; simpl.
    + by rewrite decide_True.
    + rewrite decide_False by done. by f_equal.
Qed.

Lemma wf_session_spec s :
  wf_session s = true ↔
  wf_users (users s) = true ∧ users s ≠ [] ∧
  ∃ c, controllerId s = Some c ∧ c ≠ EmptyString.
Proof.
  unfold wf_session. rewrite !andb_true_iff. split.
  - intros [[Hu Hne] Hc]. split; [done|]. split.
    + by destruct (users s).
    + destruct (controllerId s) as [c|]; [|done]. exists c.
      by apply negb_true_iff, String.eqb_neq in Hc.
  - intros (Hu & Hne & c & -> & Hc). split; [split; [done|]|].
    + by destruct (users s).
    + by apply negb_true_iff, String.eqb_neq.
Qed.

Lemma wf_users_set (us : list (string * User)) sender name :
  sender ≠ EmptyString → wf_users us = true →
  wf_users (OMap.set sender (mkUser sender name) us) = true.
Proof.
  intros Hne [Hnd Hall]%wf_users_spec. apply wf_users_spec.
  split; [by apply omap_wf_set|].
  intros k u [[= -> ->]|Hin]%omap_elem_set; [done | by apply Hall].
Qed.

Lemma wf_users_delete (us : list (string * User)) sender :
  wf_users us = true → wf_users (OMap.delete sender us) = true.
Proof.
  intros [Hnd Hall]%wf_users_spec. apply wf_users_spec.
  split; [by apply omap_wf_delete|].
  intros k u [Hin _]%omap_elem_delete. by apply Hall.
Qed.

Lemma omap_set_nonempty {A} (l : list (string * A)) k a : OMap.set k a l ≠ [].
Proof. destruct l as [|[k' a'] l]; simpl; [done|]. by destruct (decide (k = k')). Qed.

Lemma wf_registry_get σ sessionId s :
  wf_registry σ = true → OMap.get sessionId σ = Some s → wf_session s = true.
Proof.
  intros [_ Hall]%wf_registry_spec Hg. eapply Hall. by apply omap_get_elem.
Qed.

Lemma wf_registry_set σ sessionId s :
  wf_registry σ = true → wf_session s = true →
  wf_registry (OMap.set sessionId s σ) = true.
Proof.
  intros [Hnd Hall]%wf_registry_spec Hs. apply wf_registry_spec.
  split; [by apply omap_wf_set|].
  intros k s' [[= -> ->]|Hin]%omap_elem_set; [done | by eapply Hall].
Qed.

Lemma nextController_first (us : list (string * User)) k u rest :
  wf_users us = true → us = (k, u) :: rest →
  nextController us = Some k ∧ k ≠ EmptyString.
Proof.
  intros [_ Hall]%wf_users_spec ->. destruct (Hall k u) as [Hu Hk]; [left|].
  unfold nextController, or_null. simpl. rewrite Hu. split; [|done].
  apply String.eqb_neq in Hk. by rewrite Hk.
Qed.

Lemma leave_wf sender sessionId s s' :
  wf_session s = true → (leave sender sessionId s).1 = Some s' →
  wf_session s' = true.
Proof.
  intros Hwf. unfold leave.
  destruct (OMap.has sender (users s)) eqn:Hm; simpl; [|by intros [= <-]].
  apply wf_session_spec in Hwf as (Hu & _ & Hc).
  pose proof (wf_users_delete _ sender Hu) as Hu'.
  destruct (OMap.delete sender (users s)) as [|[k u] rest] eqn:Hd.
  - destruct (is_controller s sender); simpl; [|done].
    by destruct (nextController []).
  - destruct (nextController_first _ k u rest Hu' eq_refl) as [Hn Hk].
    destruct (is_controller s sender); simpl.
    + rewrite Hn. simpl. intros [= <-]. apply wf_session_spec. simpl.
      split; [done|]. split; [done|]. by exists k.
    + intros [= <-]. by apply wf_session_spec.
Qed.

Lemma on_disconnect_wf sender σ :
  wf_registry σ = true → wf_registry (on_disconnect sender σ).1 = true.
Proof.
  intros [Hnd Hall]%wf_registry_spec. apply wf_registry_spec. split.
  - clear Hall. unfold OMap.wf in *.
    induction σ as [|[k s] σ IH]; simpl; [done|].
    apply NoDup_cons in Hnd as [Hnin Hnd]. specialize (IH Hnd).
    pose proof (on_disconnect_keys sender σ k) as Hk.
    destruct (leave sender k s) as [kept out].
    destruct (on_disconnect sender σ) as [rest out']. simpl in *.
    destruct kept; [|done]. simpl. apply NoDup_cons. split; [|done].
    intros Hin. by apply Hnin, Hk.
  - intros k s' Hin. apply on_disconnect_elem in Hin as (s & Hin & Hl).
    simpl in *. eapply leave_wf; [|done]. by eapply Hall.
Qed.

Lemma handle_wf now sender m σ :
  sender ≠ EmptyString → wf_registry σ = true →
  wf_registry (handle now sender m σ).1 = true.
Proof.
  intros Hne Hwf. destruct m; simpl; try done.
  - (* session:join *)
    unfold on_join, getSession.
    destruct (OMap.get sessionId σ) as [s|] eqn:Hg; simpl.
    + apply wf_registry_set; [done|].
      apply (wf_registry_get _ _ _ Hwf), wf_session_spec in Hg as (Hu & _ & Hc).
      destruct (truthy (controllerId s)); apply wf_session_spec; simpl;
        (split; [by apply wf_users_set|]);
        (split; [apply omap_set_nonempty|]); [done | by exists sender].
    + rewrite omap_set_set. apply wf_registry_set; [done|].
      apply wf_session_spec. simpl. split; [|split; [done | by exists sender]].
      by apply (wf_users_set []).
  - (* scene:update *)
    unfold on_scene_update.
    destruct (OMap.get sessionId σ) as [s|] eqn:Hg; [|done].
    destruct (is_controller s sender); simpl; [|done].
    apply wf_registry_set; [done|]. apply (wf_registry_get _ _ _ Hwf Hg).
  - (* photos:update *)
    unfold on_photos_update.
    destruct (OMap.get sessionId σ) as [s|] eqn:Hg; [|done].
    destruct (is_controller s sender); simpl; [|done].
    apply wf_registry_set; [done|]. apply (wf_registry_get _ _ _ Hwf Hg).
  - (* control:request *)
    unfold on_control_request.
    destruct (OMap.get sessionId σ) as [s|]; [|done].
    destruct (controllerId s) as [c|]; [|done]. by destruct (truthy (Some c)).
  - (* control:offer *)
    unfold on_control_offer.
    destruct (OMap.get sessionId σ) as [s|]; [|done].
    by destruct (is_controller s sender).
  - (* control:accept *)
    unfold on_control_accept.
    destruct (OMap.get sessionId σ) as [s|] eqn:Hg; [|done]. simpl.
    apply wf_registry_set; [done|].
    apply (wf_registry_get _ _ _ Hwf), wf_session_spec in Hg as (Hu & Hn & _).
    apply wf_session_spec. simpl. split; [done|]. split; [done | by exists sender].
  - (* control:decline *)
    unfold on_control_decline. by destruct (OMap.get sessionId σ).
  - (* webrtc:viewer-join *)
    unfold on_viewer_join.
    destruct (OMap.get sessionId σ) as [s|]; [|done].
    destruct (controllerId s) as [c|]; [|done]. by destruct (truthy (Some c)).
  - (* disconnect *)
    by apply on_disconnect_wf.
Qed.

(** Every registry reached from the empty one by messages from sockets
    with non-empty ids is well formed; in particular no session is left
    without users. *)
Lemma run_wf σ tr :
  named_senders tr = true → wf_registry σ = true →
  wf_registry (run σ tr).1 = true.
Proof.
  revert σ. induction tr as [|[[now sender] m] tr IH]; intros σ Hs Hwf;
    simpl; [done|].
  simpl in Hs. apply andb_true_iff in Hs as [Hhd Htl].
  apply negb_true_iff, String.eqb_neq in Hhd.
  pose proof (handle_wf now sender m σ Hhd Hwf) as Hwf1.
  destruct (handle now sender m σ) as [σ1 out].
  specialize (IH σ1 Htl Hwf1). by destruct (run σ1 tr).
Qed.
End server_facts.

(** ** The server: what the handlers keep, drop and compose to *)
Section server_more.
Context {V : Type}.
Implicit Types (σ : @Registry V) (s : @Session V) (m : @Msg V).

(** X1: whatever messages arrive from sockets with non-empty ids, the
    registry built from the empty one has pairwise distinct session ids,
    and every session in it has at least one user, distinct user keys,
    every user stored under its own non-empty id, and a controller whose
    id is a non-empty string. *)
Theorem reachable_registry_shape (tr : list (@Step V)) :
  named_senders tr = true →
  NoDup (OMap.keys (run [] tr).1) ∧
  ∀ sessionId s, OMap.get sessionId (run [] tr).1 = Some s →
    users s ≠ [] ∧
    NoDup (OMap.keys (users s)) ∧
    (∀ k u, OMap.get k (users s) = Some u → user_id u = k ∧ k ≠ EmptyString) ∧
    ∃ c, controllerId s = Some c ∧ c ≠ EmptyString.
Proof.
  intros Hs. pose proof (run_wf [] tr Hs eq_refl) as Hwf.
  apply wf_registry_spec in Hwf as [Hnd Hall]. split; [done|].
  intros sessionId s Hg. apply omap_get_elem, Hall in Hg.
  apply wf_session_spec in Hg as (Hu & Hne & Hc).
  apply wf_users_spec in Hu as [Hndu Hids].
  split; [done|]. split; [done|]. split; [|done].
  intros k u Hk. by apply Hids, omap_get_elem.
Qed.

(** X2: a [control:request], [control:accept], [control:decline] or
    [webrtc:viewer-join] that names a session id absent from the registry
    is dropped: the registry is unchanged and nothing is emitted. *)
Theorem unknown_session_ignored (now : Z) (sender sessionId : string) σ :
  OMap.get sessionId σ = None →
  handle now sender (ControlRequest sessionId) σ = (σ, []) ∧
  handle now sender (ControlAccept sessionId) σ = (σ, []) ∧
  (∀ fromId, handle now sender (ControlDecline sessionId fromId) σ = (σ, [])) ∧
  handle now sender (ViewerJoinReq sessionId) σ = (σ, []).
Proof.
  intros Hg. simpl.
  unfold on_control_request, on_control_accept, on_control_decline, on_viewer_join.
  by rewrite Hg.
Qed.

Lemma handle_reads_only now sender m σ :
  reads_only m = true → (handle now sender m σ).1 = σ.
Proof.
  destruct m; simpl; try done; intros _.
  - unfold on_control_request. destruct (OMap.get sessionId σ) as [s|]; [|done].
    destruct (controllerId s) as [c|]; [|done]. by destruct (truthy (Some c)).
  - unfold on_control_offer. destruct (OMap.get sessionId σ) as [s|]; [|done].
    by destruct (is_controller s sender).
  - unfold on_control_decline. by destruct (OMap.get sessionId σ).
  - unfold on_viewer_join. destruct (OMap.get sessionId σ) as [s|]; [|done].
    destruct (controllerId s) as [c|]; [|done]. by destruct (truthy (Some c)).
Qed.

(** X3: a run made only of [control:request], [control:offer],
    [control:decline], [webrtc:viewer-join] and relay messages leaves the
    registry exactly as it was, and emits at most one event per message. *)
Theorem reading_run_keeps_registry (tr : list (@Step V)) σ :
  forallb (fun st : Step => reads_only st.2) tr = true →
  (run σ tr).1 = σ ∧ (length (run σ tr).2 ≤ length tr)%nat.
Proof.
  induction tr as [|[[now sender] m] tr IH]; simpl; [done|].
  intros [Hm Htl]%andb_true_iff. destruct (IH Htl) as [IH1 IH2].
  pose proof (handle_reads_only now sender m σ Hm) as Hσ.
  assert (length (handle now sender m σ).2 ≤ 1)%nat as Hlen.
  { destruct m; try done; simpl;
      unfold on_control_request, on_control_offer, on_control_decline,
        on_viewer_join;
      repeat case_match; simpl; lia. }
  destruct (handle now sender m σ) as [σ1 out]. simpl in *. subst σ1.
  destruct (run σ tr) as [σ2 out']. simpl in *.
  split; [done|]. rewrite length_app. lia.
Qed.

Lemma handle_other_session (now : Z) (sender sessionId other : string) m σ :
  session_of m = Some sessionId →
  other ≠ sessionId →
  OMap.get other (handle now sender m σ).1 = OMap.get other σ.
Proof.
  intros Hm Hne.
  destruct (reads_only m) eqn:Hr; [by rewrite handle_reads_only|].
  destruct m; simpl in *; try done; injection Hm as ->.
  - unfold on_join, getSession.
    destruct (OMap.get sessionId σ) as [s|]; simpl.
    + by rewrite omap_get_set_ne.
    + by rewrite !omap_get_set_ne.
  - unfold on_scene_update. destruct (OMap.get sessionId σ) as [s|]; [|done].
    destruct (is_controller s sender); simpl; [|done]. by rewrite omap_get_set_ne.
  - unfold on_photos_update. destruct (OMap.get sessionId σ) as [s|]; [|done].
    destruct (is_controller s sender); simpl; [|done]. by rewrite omap_get_set_ne.
  - unfold on_control_accept. destruct (OMap.get sessionId σ) as [s|]; [|done].
    simpl. by rewrite omap_get_set_ne.
Qed.

(** X4: a message that names a session never touches another session:
    whatever is stored under any other session id is the same before and
    after. *)
Theorem other_sessions_untouched (now : Z) (sender sessionId other : string) m σ :
  session_of m = Some sessionId →
  other ≠ sessionId →
  OMap.get other (handle now sender m σ).1 = OMap.get other σ.
Proof. apply handle_other_session. Qed.

(** *** Disconnection and joining *)

Lemma leave_stranger sender sessionId s :
  OMap.has sender (users s) = false → leave sender sessionId s = (Some s, []).
Proof. intros Hm. unfold leave. by rewrite Hm. Qed.

Lemma on_disconnect_stranger sender σ :
  stranger sender σ = true → on_disconnect sender σ = (σ, []).
Proof.
  induction σ as [|[k s] σ IH]; simpl; [done|].
  intros [Hs Hrest]%andb_true_iff. apply negb_true_iff in Hs.
  by rewrite leave_stranger, IH.
Qed.

Lemma on_disconnect_leaves_stranger sender σ :
  stranger sender (on_disconnect sender σ).1 = true.
Proof.
  unfold stranger. apply forallb_forall. intros p Hp%list_elem_of_In.
  apply on_disconnect_elem in Hp as (s & _ & Hl).
  apply leave_removes in Hl. by rewrite Hl.
Qed.

(** X5: when a socket that is a user of no session disconnects, the
    registry is unchanged and nothing is emitted. *)
Theorem disconnect_of_stranger (now : Z) (sender : string) σ :
  stranger sender σ = true →
  handle now sender Disconnect σ = (σ, []).
Proof. apply on_disconnect_stranger. Qed.

(** X6: after a socket has disconnected it is a user of no session, and a
    second [disconnect] of the same socket changes nothing and emits
    nothing. *)
Theorem disconnect_idempotent (now now' : Z) (sender : string) σ :
  stranger sender (handle now sender Disconnect σ).1 = true ∧
  handle now' sender Disconnect (handle now sender Disconnect σ).1
    = ((handle now sender Disconnect σ).1, []).
Proof.
  simpl. split; [apply on_disconnect_leaves_stranger|].
  apply on_disconnect_stranger, on_disconnect_leaves_stranger.
Qed.

Lemma omap_delete_absent {A} (l : list (string * A)) k :
  OMap.get k l = None → OMap.delete k l = l.
Proof.
  induction l as [|[k' a'] l IH]; simpl; [done|].
  destruct (decide (k = k')); [done|]. intros Hg. f_equal. by apply IH.
Qed.

Lemma omap_delete_set_absent {A} (l : list (string * A)) k a :
  OMap.get k l = None → OMap.delete k (OMap.set k a l) = l.
Proof.
  intros Hg. rewrite omap_keys_set_absent by done.
  induction l as [|[k' a'] l IH]; simpl in *.
  - by rewrite decide_True.
  - destruct (decide (k = k')); [done|]. f_equal. by apply IH.
Qed.

Lemma on_disconnect_set_restored sender sessionId s s2 σ :
  stranger sender σ = true →
  OMap.get sessionId σ = Some s →
  (leave sender sessionId s2).1 = Some s →
  (on_disconnect sender (OMap.set sessionId s2 σ)).1 = σ.
Proof.
  intros Hst Hg Hl. induction σ as [|[k s0] σ IH]; simpl in *; [done|].
  apply andb_true_iff in Hst as [Hs0 Hst]. apply negb_true_iff in Hs0.
  destruct (decide (sessionId = k)) as [->|Hne]; simpl.
  - injection Hg as ->.
    destruct (leave sender k s2) as [kept out]. simpl in Hl. subst kept.
    by rewrite on_disconnect_stranger.
  - rewrite leave_stranger by done. specialize (IH Hst Hg).
    destruct (on_disconnect sender (OMap.set sessionId s2 σ)) as [rest out'].
    simpl in *. by subst.
Qed.

Lemma on_disconnect_set_dropped sender sessionId s2 σ :
  stranger sender σ = true →
  OMap.get sessionId σ = None →
  (leave sender sessionId s2).1 = None →
  (on_disconnect sender (OMap.set sessionId s2 σ)).1 = σ.
Proof.
  intros Hst Hg Hl. induction σ as [|[k s0] σ IH]; simpl in *.
  - destruct (leave sender sessionId s2) as [kept out]. simpl in Hl. by subst.
  - apply andb_true_iff in Hst as [Hs0 Hst]. apply negb_true_iff in Hs0.
    destruct (decide (sessionId = k)) as [->|Hne]; [done|]. simpl.
    rewrite leave_stranger by done. specialize (IH Hst Hg).
    destruct (on_disconnect sender (OMap.set sessionId s2 σ)) as [rest out'].
    simpl in *. by subst.
Qed.

(** X7: in a well-formed registry, when a socket that is a user of no
    session (and not the recorded controller of the session it names)
    joins and then disconnects, the registry is exactly what it was before
    the join: a session created by the join is deleted again, an existing
    one gets its user list back in the same order. *)
Theorem join_then_disconnect_restores (now now' : Z) (sender sessionId name : string) σ :
  wf_registry σ = true →
  stranger sender σ = true →
  (∀ s, OMap.get sessionId σ = Some s → controllerId s ≠ Some sender) →
  (handle now' sender Disconnect
     (handle now sender (Join sessionId name) σ).1).1 = σ.
Proof.
  intros Hwf Hst Hctrl. simpl. unfold on_join, getSession.
  destruct (OMap.get sessionId σ) as [s|] eqn:Hg; simpl.
  - specialize (Hctrl s eq_refl).
    pose proof (wf_registry_get _ _ _ Hwf Hg) as Hs.
    apply wf_session_spec in Hs as (_ & Hne & c & Hc & Hcne).
    assert (OMap.get sender (users s) = None) as Habs.
    { unfold stranger in Hst. rewrite forallb_forall in Hst.
      apply omap_get_elem, list_elem_of_In, Hst in Hg. simpl in Hg.
      apply negb_true_iff in Hg. unfold OMap.has in Hg.
      by destruct (OMap.get sender (users s)). }
    assert (truthy (controllerId s) = true) as Ht.
    { rewrite Hc. simpl. by apply negb_true_iff, String.eqb_neq. }
    rewrite Ht. apply (on_disconnect_set_restored _ _ s); [done | done|].
    unfold leave. simpl. rewrite omap_has_set_eq. simpl.
    unfold is_controller. simpl. rewrite bool_decide_eq_false_2 by done.
    rewrite omap_delete_set_absent by done. simpl.
    destruct s as [us cc bb tt]. simpl in *. by destruct us.
  - rewrite omap_set_set. apply on_disconnect_set_dropped; [done | done|].
    unfold leave, OMap.has, is_controller. simpl.
    rewrite !decide_True by done. simpl.
    by rewrite bool_decide_eq_true_2.
Qed.

(** What [disconnect] emits when the socket is a user of one session
    only: what the loop body emits for that session. *)
Lemma on_disconnect_out_single sender sessionId s σ :
  OMap.wf σ →
  OMap.get sessionId σ = Some s →
  (∀ other s0, other ≠ sessionId → OMap.get other σ = Some s0 →
     OMap.has sender (users s0) = false) →
  (on_disconnect sender σ).2 = (leave sender sessionId s).2.
Proof.
  unfold OMap.wf. induction σ as [|[k s0] σ IH]; simpl; [done|].
  intros [Hnin Hnd]%NoDup_cons Hg Hothers.
  destruct (decide (sessionId = k)) as [->|Hne].
  - injection Hg as ->.
    assert (stranger sender σ = true) as Hst.
    { unfold stranger. apply forallb_forall. intros [k' s'] Hin%list_elem_of_In.
      simpl. apply negb_true_iff. apply (Hothers k').
      - intros ->. apply Hnin. unfold OMap.keys. apply list_elem_of_fmap.
        by exists (k, s').
      - rewrite decide_False.
        + by apply omap_wf_elem_get.
        + intros ->. apply Hnin. unfold OMap.keys. apply list_elem_of_fmap.
          by exists (k, s'). }
    rewrite (on_disconnect_stranger _ _ Hst).
    destruct (leave sender k s) as [kept out]. simpl. by rewrite app_nil_r.
  - rewrite leave_stranger.
    + rewrite <- (IH Hnd Hg).
      * by destruct (on_disconnect sender σ).
      * intros other s1 Ho Hg1. apply (Hothers other s1 Ho).
        rewrite decide_False; [done|]. intros ->. apply Hnin.
        by eapply omap_get_key.
    + apply (Hothers k s0); [done|]. by rewrite decide_True.
Qed.

(** X8: when a user who is not the controller disconnects, what the
    handler emits is, session by session in registry order, what the loop
    body emits, and for this session that is [session:user-left] to the
    room minus the leaver and nothing else; when the socket is a user of
    no other session, that one event is all the handler emits.  The
    controller, the blob and the order of the remaining users are kept,
    and the session is deleted only if no user remains. *)
Theorem member_disconnect (now : Z) (sender sessionId : string) σ s :
  wf_registry σ = true →
  OMap.get sessionId σ = Some s →
  OMap.has sender (users s) = true →
  controllerId s ≠ Some sender →
  let after := handle now sender Disconnect σ in
  after.2 = σ ≫= (λ p, (leave sender p.1 p.2).2) ∧
  (leave sender sessionId s).2
    = [ (SocketTo sessionId sender, SessionUserLeft sender) ] ∧
  ((∀ other s0, other ≠ sessionId → OMap.get other σ = Some s0 →
      OMap.has sender (users s0) = false) →
   after.2 = [ (SocketTo sessionId sender, SessionUserLeft sender) ]) ∧
  OMap.get sessionId after.1
    = match OMap.delete sender (users s) with
      | [] => None
      | u :: us =>
          Some (mkSession (u :: us) (controllerId s) (sceneState s) (createdAt s))
      end.
Proof.
  intros [Hnd _]%wf_registry_spec Hg Hm Hc. simpl.
  split; [apply on_disconnect_out|].
  assert ((leave sender sessionId s).2
          = [ (SocketTo sessionId sender, SessionUserLeft sender) ]) as Hout.
  { unfold leave, is_controller. rewrite Hm, bool_decide_eq_false_2 by done.
    done. }
  split; [done|]. split.
  - intros Hothers. by rewrite (on_disconnect_out_single _ sessionId s).
  - rewrite on_disconnect_get, Hg by done. simpl.
    unfold leave, is_controller. rewrite Hm, bool_decide_eq_false_2 by done.
    simpl. by destruct (OMap.delete sender (users s)).
Qed.

Lemma run_cons_fst σ (st : @Step V) tr :
  (run σ (st :: tr)).1 = (run (handle st.1.1 st.1.2 st.2 σ).1 tr).1.
Proof.
  destruct st as [[now sender] m]. cbn [run fst snd].
  destruct (handle now sender m σ) as [σ1 out]. cbn [fst].
  by destruct (run σ1 tr).
Qed.

Lemma joins_append now sessionId (l : list (string * string)) : ∀ σ s,
  OMap.get sessionId σ = Some s →
  truthy (controllerId s) = true →
  NoDup l.*1 →
  (∀ k, k ∈ l.*1 → OMap.get k (users s) = None) →
  OMap.get sessionId (run σ (joins now sessionId l)).1
    = Some (set_users
              (users s ++ ((fun p : string * string => (p.1, mkUser p.1 p.2)) <$> l)) s).
Proof.
  induction l as [|[id n] l IH]; intros σ s Hg Ht Hnd Hnew.
  - simpl. rewrite app_nil_r, Hg. by destruct s.
  - unfold joins. rewrite fmap_cons, run_cons_fst. simpl fst. simpl snd.
    apply NoDup_cons in Hnd as [Hid Hnd].
    simpl. unfold on_join, getSession. rewrite Hg. simpl. rewrite Ht.
    erewrite (IH _ (set_users (OMap.set id (mkUser id n) (users s)) s)).
    + simpl. rewrite omap_keys_set_absent by (apply Hnew; left).
      by rewrite <- app_assoc.
    + apply omap_get_set_eq.
    + done.
    + done.
    + intros k Hk. simpl. rewrite omap_get_set_ne.
      * apply Hnew. by right.
      * intros ->. done.
Qed.

(** X9: sockets with pairwise distinct ids that join a new session one
    after the other are stored in the order of their arrival, and the
    first of them (its id being non-empty) is the controller. *)
Theorem joins_keep_arrival_order (now : Z) (sessionId first name : string)
    (l : list (string * string)) σ :
  OMap.get sessionId σ = None →
  first ≠ EmptyString →
  NoDup (first :: l.*1) →
  OMap.get sessionId (run σ (joins now sessionId ((first, name) :: l))).1
    = Some (mkSession
              ((fun p : string * string => (p.1, mkUser p.1 p.2))
                 <$> ((first, name) :: l))
              (Some first) None now).
Proof.
  intros Hg Hne [Hfirst Hnd]%NoDup_cons.
  unfold joins. rewrite fmap_cons, run_cons_fst. simpl fst. simpl snd.
  simpl handle. unfold on_join, getSession. rewrite Hg. simpl.
  rewrite omap_set_set.
  erewrite (joins_append now sessionId l _
              (mkSession [(first, mkUser first name)] (Some first) None now)).
  - done.
  - apply omap_get_set_eq.
  - simpl. by apply negb_true_iff, String.eqb_neq.
  - done.
  - intros k Hk. simpl. rewrite decide_False; [done|]. by intros ->.
Qed.

(** *** Control and the blob *)

(** X10: once a socket has accepted control of a session, a
    [scene:update] from any other socket is dropped, one from that socket
    is broadcast to the rest of the room, and (its id being non-empty)
    [control:request] and [webrtc:viewer-join] are forwarded to it. *)
Theorem accept_transfers_authority (now now' : Z) (holder sessionId : string) σ s :
  OMap.get sessionId σ = Some s →
  holder ≠ EmptyString →
  let after := (handle now holder (ControlAccept sessionId) σ).1 in
  (∀ other delta, other ≠ holder →
     handle now' other (SceneUpdate sessionId delta) after = (after, [])) ∧
  (∀ delta,
     (handle now' holder (SceneUpdate sessionId delta) after).2
       = [ (SocketTo sessionId holder, SceneState delta) ]) ∧
  (∀ requester,
     handle now' requester (ControlRequest sessionId) after
       = (after, [ (IoTo holder,
                    ControlRequested requester (name_or s requester "Guest")) ])) ∧
  (∀ viewer,
     handle now' viewer (ViewerJoinReq sessionId) after
       = (after, [ (IoTo holder, ViewerJoin viewer) ])).
Proof.
  intros Hg Hne. simpl. unfold on_control_accept. rewrite Hg. simpl.
  unfold on_scene_update, on_control_request, on_viewer_join, is_controller.
  rewrite !omap_get_set_eq. simpl.
  apply String.eqb_neq in Hne. rewrite Hne. simpl.
  split; [|split; [|done]].
  - intros other delta Ho. rewrite bool_decide_eq_false_2; [done|]. congruence.
  - intros delta. by rewrite bool_decide_eq_true_2.
Qed.

Lemma leave_keeps_blob sender sessionId s s' :
  (leave sender sessionId s).1 = Some s' →
  sceneState s' = sceneState s ∧ createdAt s' = createdAt s.
Proof.
  unfold leave. destruct (OMap.has sender (users s)); simpl; [|by intros [= <-]].
  destruct (is_controller s sender); simpl.
  - destruct (nextController (OMap.delete sender (users s))); simpl;
      (destruct (OMap.delete sender (users s)); [done|]); by intros [= <-].
  - destruct (OMap.delete sender (users s)); [done|]. by intros [= <-].
Qed.

(** What one message can do to the blob of a session that is there before
    and after it. *)
Lemma handle_blob_effect now sender m σ sessionId s s' :
  OMap.wf σ →
  OMap.get sessionId σ = Some s →
  OMap.get sessionId (handle now sender m σ).1 = Some s' →
  sceneState s' = sceneState s ∨
  (controllerId s = Some sender ∧
   ((∃ delta, m = SceneUpdate sessionId delta ∧
              sceneState s' = Some (delta ∪ blob_or_empty s)) ∨
    (∃ photos, m = PhotosUpdateReq sessionId photos ∧
               sceneState s' = Some (<["photos" := photos]> (blob_or_empty s))))).
Proof.
  intros Hwf Hg Hg'.
  destruct (reads_only m) eqn:Hr.
  { rewrite handle_reads_only in Hg' by done. left. congruence. }
  destruct (session_of m) as [sid|] eqn:Hm.
  - destruct (decide (sessionId = sid)) as [->|Hne].
    + destruct m; simpl in *; try done; injection Hm as ->.
      * left. revert Hg'. unfold on_join, getSession. rewrite Hg. simpl.
        rewrite omap_get_set_eq. intros [= <-].
        by destruct (truthy (controllerId s)).
      * revert Hg'. unfold on_scene_update, is_controller. rewrite Hg.
        case_bool_decide as Hc; simpl.
        -- rewrite omap_get_set_eq. intros [= <-]. right. split; [done|].
           left. by eexists.
        -- rewrite Hg. intros [= <-]. by left.
      * revert Hg'. unfold on_photos_update, is_controller. rewrite Hg.
        case_bool_decide as Hc; simpl.
        -- rewrite omap_get_set_eq. intros [= <-]. right. split; [done|].
           right. by eexists.
        -- rewrite Hg. intros [= <-]. by left.
      * left. revert Hg'. unfold on_control_accept. rewrite Hg. simpl.
        rewrite omap_get_set_eq. by intros [= <-].
    + rewrite (handle_other_session _ _ sid) in Hg' by done. left. congruence.
  - destruct m; simpl in *; try done. left.
    rewrite on_disconnect_get, Hg in Hg' by done. simpl in Hg'.
    by apply leave_keeps_blob in Hg' as [? _].
Qed.

(** X11: for a session that is in the registry before and after a
    message and whose [sceneState] held a blob before it, the [sceneState]
    holds a blob after it too (it is never reset to null), and every field
    that the blob had before is a field of the blob after: no message
    removes a field. *)
Theorem blob_never_shrinks (now : Z) (sender sessionId : string) m σ s s'
    (b : gmap string V) :
  wf_registry σ = true →
  OMap.get sessionId σ = Some s →
  OMap.get sessionId (handle now sender m σ).1 = Some s' →
  sceneState s = Some b →
  ∃ b', sceneState s' = Some b' ∧ ∀ f, is_Some (b !! f) → is_Some (b' !! f).
Proof.
  intros [Hwf _]%wf_registry_spec Hg Hg' Hb.
  destruct (handle_blob_effect _ _ _ _ _ _ _ Hwf Hg Hg')
    as [Heq | (_ & [(delta & _ & Hb') | (photos & _ & Hb')])].
  - exists b. split; [congruence | done].
  - unfold blob_or_empty in Hb'. rewrite Hb in Hb'. simpl in Hb'.
    eexists. split; [exact Hb'|].
    intros f [v Hf]. destruct (delta !! f) as [w|] eqn:Hd.
    + exists w. by apply lookup_union_Some_l.
    + exists v. by rewrite lookup_union_r.
  - unfold blob_or_empty in Hb'. rewrite Hb in Hb'. simpl in Hb'.
    eexists. split; [exact Hb'|].
    intros f [v Hf]. destruct (decide (f = "photos")) as [->|Hne].
    + exists photos. apply lookup_insert_eq.
    + exists v. by rewrite lookup_insert_ne.
Qed.

(** X12: the blob of a session changes only through a [scene:update] or a
    [photos:update] that names the session and is sent by its controller;
    no other message, and no other sender, ever alters it. *)
Theorem only_controller_writes_blob (now : Z) (sender sessionId : string) m σ s s' :
  wf_registry σ = true →
  OMap.get sessionId σ = Some s →
  OMap.get sessionId (handle now sender m σ).1 = Some s' →
  sceneState s' ≠ sceneState s →
  controllerId s = Some sender ∧
  ((∃ delta, m = SceneUpdate sessionId delta) ∨
   (∃ photos, m = PhotosUpdateReq sessionId photos)).
Proof.
  intros [Hwf _]%wf_registry_spec Hg Hg' Hne.
  destruct (handle_blob_effect _ _ _ _ _ _ _ Hwf Hg Hg')
    as [Heq | (Hc & [(delta & -> & _) | (photos & -> & _)])]; [done| |];
    (split; [done|]); [left | right]; by eexists.
Qed.

(** X13: two [scene:update]s of the controller leave the registry as one
    update with the merged delta (fields of the later one win) would; in
    particular sending the same delta twice stores what sending it once
    stores. *)
Theorem scene_updates_compose (now now' : Z) (sender sessionId : string) σ s
    (d1 d2 : gmap string V) :
  OMap.get sessionId σ = Some s →
  controllerId s = Some sender →
  (handle now' sender (SceneUpdate sessionId d2)
     (handle now sender (SceneUpdate sessionId d1) σ).1).1
    = (handle now sender (SceneUpdate sessionId (d2 ∪ d1)) σ).1 ∧
  (handle now' sender (SceneUpdate sessionId d1)
     (handle now sender (SceneUpdate sessionId d1) σ).1).1
    = (handle now sender (SceneUpdate sessionId d1) σ).1.
Proof.
  intros Hg Hc. simpl. unfold on_scene_update, is_controller.
  rewrite Hg, bool_decide_eq_true_2 by done. simpl.
  rewrite omap_get_set_eq. simpl. rewrite bool_decide_eq_true_2 by done. simpl.
  rewrite !omap_set_set. unfold blob_or_empty, set_sceneState. simpl. split.
  - by rewrite (assoc_L (∪)).
  - by rewrite (assoc_L (∪)), (idemp (∪) d1).
Qed.

(** X14: a [photos:update] and a [scene:update] whose delta has no
    [photos] field can be handled in either order: the registry is the
    same. *)
Theorem photos_and_scene_commute (now now' : Z) (sender sessionId : string) σ s
    (delta : gmap string V) (photos : V) :
  OMap.get sessionId σ = Some s →
  controllerId s = Some sender →
  delta !! "photos" = None →
  (handle now' sender (SceneUpdate sessionId delta)
     (handle now sender (PhotosUpdateReq sessionId photos) σ).1).1
    = (handle now' sender (PhotosUpdateReq sessionId photos)
         (handle now sender (SceneUpdate sessionId delta) σ).1).1.
Proof.
  intros Hg Hc Hd. simpl. unfold on_scene_update, on_photos_update, is_controller.
  rewrite Hg, bool_decide_eq_true_2 by done. simpl.
  rewrite !omap_get_set_eq. simpl. rewrite bool_decide_eq_true_2 by done. simpl.
  rewrite !omap_set_set. unfold blob_or_empty, set_sceneState. simpl.
  do 3 f_equal. apply map_eq. intros f.
  destruct (decide (f = "photos")) as [->|Hne].
  - rewrite lookup_insert_eq, lookup_union_r by done. by rewrite lookup_insert_eq.
  - rewrite lookup_insert_ne by done. rewrite !lookup_union.
    by rewrite lookup_insert_ne by done.
Qed.

(** X15: in a well-formed registry a [session:join] to a session that
    exists never changes its controller, blob or creation time, whoever
    joins; a socket that is not yet a user is appended after all the
    users there are. *)
Theorem join_keeps_controller (now : Z) (sender sessionId name : string) σ s :
  wf_registry σ = true →
  OMap.get sessionId σ = Some s →
  OMap.get sessionId (handle now sender (Join sessionId name) σ).1
    = Some (mkSession (OMap.set sender (mkUser sender name) (users s))
              (controllerId s) (sceneState s) (createdAt s)) ∧
  (OMap.has sender (users s) = false →
   OMap.set sender (mkUser sender name) (users s)
     = users s ++ [(sender, mkUser sender name)]).
Proof.
  intros Hwf Hg.
  pose proof (wf_registry_get _ _ _ Hwf Hg) as Hs.
  apply wf_session_spec in Hs as (_ & _ & c & Hc & Hcne).
  simpl. unfold on_join, getSession. rewrite Hg. simpl.
  rewrite Hc. simpl. apply String.eqb_neq in Hcne. rewrite Hcne. simpl.
  rewrite omap_get_set_eq. split; [unfold set_users; by rewrite Hc|].
  intros Hm. apply omap_keys_set_absent. unfold OMap.has in Hm.
  by destruct (OMap.get sender (users s)).
Qed.

(** X16: a hand-over.  In a session whose controller has a non-empty id,
    a [control:request], the controller's [control:offer] to the
    requester and the requester's [control:accept] emit, in this order,
    the notice to the controller, the offer to the requester,
    [control:changed] to the room and [scene:sync] to the requester, and
    leave the requester in control; if the requester declines instead, the
    registry is unchanged and the controller is told. *)
Theorem control_handover (t1 t2 t3 : Z) (holder requester sessionId : string) σ s :
  OMap.get sessionId σ = Some s →
  controllerId s = Some holder →
  holder ≠ EmptyString →
  run σ [ (t1, requester, ControlRequest sessionId);
          (t2, holder, ControlOfferReq sessionId requester);
          (t3, requester, ControlAccept sessionId) ]
    = (OMap.set sessionId (set_controllerId (Some requester) s) σ,
       [ (IoTo holder, ControlRequested requester (name_or s requester "Guest"));
         (IoTo requester, ControlOffer holder (name_or s holder "Host"));
         (IoTo sessionId, ControlChanged requester);
         (SocketEmit requester, SceneSync (sceneState s)) ]) ∧
  run σ [ (t1, requester, ControlRequest sessionId);
          (t2, holder, ControlOfferReq sessionId requester);
          (t3, requester, ControlDecline sessionId holder) ]
    = (σ,
       [ (IoTo holder, ControlRequested requester (name_or s requester "Guest"));
         (IoTo requester, ControlOffer holder (name_or s holder "Host"));
         (IoTo holder, ControlDeclined requester (name_or s requester "Guest")) ]).
Proof.
  intros Hg Hc Hne. simpl.
  unfold on_control_request, on_control_offer, on_control_accept,
    on_control_decline, is_controller.
  apply String.eqb_neq in Hne.
  do 4 (rewrite ?Hg, ?Hc, ?Hne, ?bool_decide_eq_true_2 by done; simpl).
  done.
Qed.
End server_more.

(** ** The client: debounce *)
Section debounce_facts.
Import Debounce.
Context {R : Type} `{EqDecision R}.
Implicit Types (c : @Client R) (v : SceneState * R) (t T : Z).

Lemma advance_armed_early sid t v id T :
  (T < t + delay)%Z →
  advance T (armed sid t v id) = (armed sid t v id, []).
Proof.
  intros Hlt. unfold advance, armed. simpl.
  rewrite !filter_cons, !filter_nil. simpl.
  rewrite decide_True, decide_False by lia. done.
Qed.

Lemma advance_armed_late sid t v id T :
  (t + delay <= T)%Z →
  (advance T (armed sid t v id)).2
    = [((t + delay)%Z, mkSceneUpdate sid v.1 v.2)].
Proof.
  intros Hle. unfold advance, armed. simpl.
  rewrite !filter_cons, !filter_nil. simpl. by rewrite decide_True by lia.
Qed.

Lemma change_armed sid t v id t' v' :
  v' ≠ v → change t' v' (armed sid t v id) = armed sid t' v' (S id).
Proof.
  intros Hne. unfold change, armed. simpl.
  rewrite decide_False by (by destruct v).
  unfold rerun, effect, clear_pending, clearTimeout. simpl.
  rewrite !filter_cons, !filter_nil. simpl.
  rewrite decide_False by (intros Hn; by apply Hn). done.
Qed.

Lemma change_tidy c t v :
  isController c = true → socketRef c = true → tidy c = true →
  v ≠ (sceneState c, rotationSpeed c) →
  change t v c = armed (sessionId c) t v (pred (nextTimer c)).
Proof.
  intros Hc Hs Ht Hne. unfold change. rewrite decide_False by done.
  destruct c as [ic so sid ss rs ref cl ts nt]. unfold tidy in Ht.
  simpl in *. subst.
  destruct nt as [|nt]; [done|]. simpl in Ht.
  unfold rerun, effect, clear_pending, clearTimeout, armed.
  destruct ts as [|tm [|tm' ts]]; [| |done].
  - destruct cl, ref as [[|id]|]; simpl; done.
  - destruct ref as [[|id]|]; [done| |done]. apply Nat.eqb_eq in Ht.
    destruct cl; simpl; rewrite ?filter_cons, ?filter_nil;
      rewrite ?decide_False by (intros Hn; by apply Hn); simpl;
      rewrite ?filter_nil; done.
Qed.

Lemma advance_none_due c T :
  forallb (fun tm => bool_decide (T < deadline tm)%Z) (timers c) = true →
  advance T c = (c, []).
Proof.
  intros Hall. unfold advance.
  assert (filter (fun tm => ¬ (deadline tm <= T)%Z) (timers c) = timers c
          ∧ filter (fun tm => (deadline tm <= T)%Z) (timers c) = []) as [-> ->].
  { induction (timers c) as [|tm ts IH]; [done|]. simpl in Hall.
    apply andb_true_iff in Hall as [Htm Hall].
    apply bool_decide_eq_true in Htm. destruct (IH Hall) as [IH1 IH2].
    rewrite !filter_cons, IH1, IH2.
    rewrite decide_True, decide_False by lia. done. }
  by destruct c.
Qed.

(** [tidy] holds at mount and is kept by every step of the client. *)
Lemma tidy_mounted sid s0 (r0 : R) : tidy (mounted sid s0 r0) = true.
Proof. done. Qed.

Lemma tidy_rerun c t : tidy c = true → tidy (rerun t c) = true.
Proof.
  destruct c as [ic so sid ss rs ref cl ts nt]. unfold tidy. simpl.
  destruct nt as [|nt]; [done|]. simpl.
  unfold rerun, effect, clear_pending, clearTimeout. simpl.
  destruct ts as [|tm [|tm' ts]]; [| |done].
  - intros _. destruct cl, ic, so, ref as [[|id]|]; simpl;
      rewrite ?filter_nil; simpl; by rewrite ?Nat.eqb_refl.
  - destruct ref as [[|id]|]; [done| |done]. intros Hid%Nat.eqb_eq.
    destruct cl, ic, so; simpl; rewrite ?filter_cons, ?filter_nil;
      rewrite ?decide_False by (intros Hn; by apply Hn); simpl;
      rewrite ?filter_nil; simpl; rewrite ?Hid, ?Nat.eqb_refl; done.
Qed.

Lemma tidy_change c t v : tidy c = true → tidy (change t v c) = true.
Proof.
  intros Ht. unfold change. case_decide; [done|]. apply tidy_rerun.
  by destruct c.
Qed.

Lemma tidy_role_change c t b : tidy c = true → tidy (role_change t b c) = true.
Proof.
  intros Ht. unfold role_change. case_decide; [done|]. apply tidy_rerun.
  by destruct c.
Qed.

Lemma tidy_advance c T : tidy c = true → tidy (advance T c).1 = true.
Proof.
  destruct c as [ic so sid ss rs ref cl ts nt]. unfold tidy, advance. simpl.
  destruct nt as [|nt]; [done|]. simpl.
  destruct ts as [|tm [|tm' ts]]; [done| |done].
  rewrite !filter_cons, !filter_nil. by case_decide.
Qed.

Lemma play_armed sid evs : ∀ t v id,
  burst_from t v evs = true →
  ∃ id', play (armed sid t v id) evs
           = (armed sid (default (t, v) (last evs)).1
                        (default (t, v) (last evs)).2 id', []).
Proof.
  induction evs as [|[t' v'] evs IH]; intros t v id Hb; cbn [play].
  - by exists id.
  - simpl in Hb. apply andb_true_iff in Hb as [Hb Hrest].
    apply andb_true_iff in Hb as [Hb Hv]. apply andb_true_iff in Hb as [Hle Hlt].
    apply bool_decide_eq_true in Hle, Hlt, Hv.
    rewrite advance_armed_early by done. rewrite change_armed by done.
    destruct (IH t' v' (S id) Hrest) as [id' ->]. exists id'.
    rewrite last_cons. by destruct (last evs).
Qed.

(** C7: on a controller client whose socket is open, a burst of one or
    more changes of scene state or rotation speed, each less than 150 ms
    after the one before, puts exactly one [scene:update] on the socket:
    it leaves 150 ms after the last change and carries the values of the
    last change; before that moment nothing at all has been sent. *)
Theorem debounce_single_message c (evs : list (Z * (SceneState * R))) t v :
  isController c = true →
  socketRef c = true →
  tidy c = true →
  burst c evs = true →
  last evs = Some (t, v) →
  (∀ T, (t + 150 <= T)%Z →
     sent c evs T = [((t + 150)%Z, mkSceneUpdate (sessionId c) v.1 v.2)]) ∧
  (∀ T, (T < t + 150)%Z → sent c evs T = []).
Proof.
  intros Hc Hs Ht Hb Hlast.
  destruct evs as [|[t1 v1] evs]; [done|]. simpl in Hb.
  apply andb_true_iff in Hb as [Hv Hb]. apply andb_true_iff in Hv as [Hdue Hv].
  apply bool_decide_eq_true in Hv.
  assert (∃ id, play c ((t1, v1) :: evs) = (armed (sessionId c) t v id, []))
    as [id Hplay].
  { cbn [play]. rewrite advance_none_due by done. rewrite change_tidy by done.
    destruct (play_armed (sessionId c) evs t1 v1 (pred (nextTimer c)) Hb)
      as [id ->].
    exists id. rewrite last_cons in Hlast.
    destruct (last evs) as [e|]; simpl; by inversion Hlast. }
  unfold sent. rewrite Hplay. split; intros T HT.
  - by rewrite advance_armed_late by (unfold delay; lia).
  - by rewrite advance_armed_early by (unfold delay; lia).
Qed.
End debounce_facts.

(** ** The client: more on the debounce *)
Section debounce_more.
Import Debounce.
Context {R : Type} `{EqDecision R}.
Implicit Types (c : @Client R) (v : SceneState * R) (t T : Z).

Lemma sent_cons c t v (evs : list (Z * (SceneState * R))) T :
  sent c ((t, v) :: evs) T
    = (advance t c).2 ++ sent (change t v (advance t c).1) evs T.
Proof.
  unfold sent. cbn [play]. destruct (advance t c) as [c1 out]. cbn [fst snd].
  destruct (play (change t v c1) evs) as [c2 out']. by rewrite <- app_assoc.
Qed.

Lemma advance_armed_fires sid t v id T :
  (t + delay <= T)%Z →
  advance T (armed sid t v id)
    = (spent sid v id, [((t + delay)%Z, mkSceneUpdate sid v.1 v.2)]).
Proof.
  intros Hle. unfold advance, armed, spent. simpl.
  rewrite !filter_cons, !filter_nil. simpl.
  rewrite decide_False, decide_True by lia. done.
Qed.

Lemma advance_armed_waits sid t v id T :
  (T < t + delay)%Z → advance T (armed sid t v id) = (armed sid t v id, []).
Proof.
  intros Hlt. unfold advance, armed. simpl.
  rewrite !filter_cons, !filter_nil. simpl.
  rewrite decide_True, decide_False by lia. done.
Qed.

Lemma change_from_armed sid t v id t' v' :
  v' ≠ v → change t' v' (armed sid t v id) = armed sid t' v' (S id).
Proof.
  intros Hne. unfold change, armed. simpl.
  rewrite decide_False by (by destruct v).
  unfold rerun, effect, clear_pending, clearTimeout. simpl.
  rewrite !filter_cons, !filter_nil. simpl.
  rewrite decide_False by (intros Hn; by apply Hn). done.
Qed.

Lemma change_from_spent sid v id t' v' :
  v' ≠ v → change t' v' (spent sid v id) = armed sid t' v' (S id).
Proof.
  intros Hne. unfold change, spent. simpl.
  rewrite decide_False by (by destruct v). done.
Qed.

Lemma change_from_tidy c t v :
  isController c = true → socketRef c = true → tidy c = true →
  v ≠ (sceneState c, rotationSpeed c) →
  change t v c = armed (sessionId c) t v (pred (nextTimer c)).
Proof.
  intros Hc Hs Ht Hne. unfold change. rewrite decide_False by done.
  destruct c as [ic so sid ss rs ref cl ts nt]. unfold tidy in Ht.
  simpl in *. subst.
  destruct nt as [|nt]; [done|]. simpl in Ht.
  unfold rerun, effect, clear_pending, clearTimeout, armed.
  destruct ts as [|tm [|tm' ts]]; [| |done].
  - destruct cl, ref as [[|id]|]; simpl; done.
  - destruct ref as [[|id]|]; [done| |done]. apply Nat.eqb_eq in Ht.
    destruct cl; simpl; rewrite ?filter_cons, ?filter_nil;
      rewrite ?decide_False by (intros Hn; by apply Hn); simpl;
      rewrite ?filter_nil; done.
Qed.

Lemma advance_before_due c T :
  forallb (fun tm => bool_decide (T < deadline tm)%Z) (timers c) = true →
  advance T c = (c, []).
Proof.
  intros Hall. unfold advance.
  assert (filter (fun tm => ¬ (deadline tm <= T)%Z) (timers c) = timers c
          ∧ filter (fun tm => (deadline tm <= T)%Z) (timers c) = []) as [-> ->].
  { induction (timers c) as [|tm ts IH]; [done|]. simpl in Hall.
    apply andb_true_iff in Hall as [Htm Hall].
    apply bool_decide_eq_true in Htm. destruct (IH Hall) as [IH1 IH2].
    rewrite !filter_cons, IH1, IH2.
    rewrite decide_True, decide_False by lia. done. }
  by destruct c.
Qed.

Lemma sent_armed sid (evs : list (Z * (SceneState * R))) : ∀ t v id T,
  changes_from t v evs = true →
  ((default (t, v) (last evs)).1 + delay <= T)%Z →
  sent (armed sid t v id) evs T
    = (fun e : Z * (SceneState * R) =>
         ((e.1 + delay)%Z, mkSceneUpdate sid e.2.1 e.2.2)) <$> survivors t v evs.
Proof.
  induction evs as [|[t' v'] evs IH]; intros t v id T Hch HT.
  - unfold sent. cbn [play]. simpl in HT.
    by rewrite advance_armed_fires.
  - simpl in Hch. apply andb_true_iff in Hch as [Hch Hrest].
    apply andb_true_iff in Hch as [Hle Hv].
    apply bool_decide_eq_true in Hle, Hv.
    assert ((default (t', v') (last evs)).1 + delay <= T)%Z as HT'.
    { rewrite last_cons in HT. by destruct (last evs). }
    rewrite sent_cons. cbn [survivors]. rewrite fmap_app.
    destruct (decide (t + delay <= t')%Z) as [Hlate|Hearly].
    + rewrite advance_armed_fires by done. cbn [fst snd].
      rewrite change_from_spent by done. by rewrite (IH t' v' (S id) T).
    + rewrite advance_armed_waits by lia. cbn [fst snd].
      rewrite change_from_armed by done. by rewrite (IH t' v' (S id) T).
Qed.

(** X17: on a controller client with an open socket, for changes of scene
    state or rotation speed that come in the order of their times, a
    [scene:update] goes out for a change exactly when no other change
    follows it within 150 ms; it leaves 150 ms after that change, carries
    its values, and the messages leave in the order of the changes. *)
Theorem debounce_sends_survivors c t v (evs : list (Z * (SceneState * R))) T :
  isController c = true →
  socketRef c = true →
  tidy c = true →
  changes c ((t, v) :: evs) = true →
  ((default (t, v) (last evs)).1 + 150 <= T)%Z →
  sent c ((t, v) :: evs) T
    = (fun e : Z * (SceneState * R) =>
         ((e.1 + 150)%Z, mkSceneUpdate (sessionId c) e.2.1 e.2.2))
        <$> survivors t v evs.
Proof.
  intros Hc Hs Ht Hch HT. simpl in Hch.
  apply andb_true_iff in Hch as [Hch Hrest].
  apply andb_true_iff in Hch as [Hdue Hv]. apply bool_decide_eq_true in Hv.
  rewrite sent_cons, advance_before_due by done. cbn [fst snd app].
  rewrite change_from_tidy by done. by apply sent_armed.
Qed.

Lemma change_without_control c t v :
  isController c = false → timers c = [] →
  isController (change t v c) = false ∧ timers (change t v c) = [].
Proof.
  intros Hc Ht. destruct c as [ic so sid ss rs ref cl ts nt]. simpl in *. subst.
  unfold change. simpl. case_decide; [done|].
  unfold rerun, effect, clear_pending, clearTimeout. simpl.
  destruct cl, ref as [[|id]|]; simpl; by rewrite ?filter_nil.
Qed.

Lemma advance_without_timers c T :
  timers c = [] → advance T c = (c, []).
Proof.
  intros Ht. destruct c as [ic so sid ss rs ref cl ts nt]. simpl in *. subst.
  unfold advance. simpl. by rewrite !filter_nil.
Qed.

Lemma sent_without_control (evs : list (Z * (SceneState * R))) : ∀ c T,
  isController c = false → timers c = [] → sent c evs T = [].
Proof.
  induction evs as [|[t v] evs IH]; intros c T Hc Ht.
  - unfold sent. cbn [play]. by rewrite advance_without_timers.
  - rewrite sent_cons, advance_without_timers by done. cbn [fst snd app].
    destruct (change_without_control c t v Hc Ht) as [Hc' Ht']. by apply IH.
Qed.

(** [orderly] holds when the component mounts and is kept by every step
    of the client. *)
Lemma orderly_steps c t T v b :
  orderly (mounted (sessionId c) (sceneState c) (rotationSpeed c)) = true ∧
  (orderly c = true →
   orderly (change t v c) = true ∧ orderly (role_change t b c) = true
   ∧ orderly (advance T c).1 = true).
Proof.
  split; [done|]. intros Ho.
  assert (∀ c0 : @Client R, orderly c0 = true → orderly (rerun t c0) = true)
    as Hrerun.
  { intros [ic so sid ss rs ref cl ts nt]. unfold orderly, tidy. simpl.
    destruct nt as [|nt]; [done|]. simpl.
    unfold rerun, effect, clear_pending, clearTimeout. simpl.
    destruct ts as [|tm [|tm' ts]]; [| |done].
    - intros _. destruct cl, ic, so, ref as [[|id]|]; simpl;
        rewrite ?filter_nil; simpl; by rewrite ?Nat.eqb_refl.
    - destruct ref as [[|id]|]; [done| |done].
      intros [Hid ->]%andb_true_iff. apply Nat.eqb_eq in Hid.
      destruct ic, so; simpl; rewrite ?filter_cons, ?filter_nil;
        rewrite ?decide_False by (intros Hn; by apply Hn); simpl;
        rewrite ?filter_nil; simpl; rewrite ?Nat.eqb_refl; done. }
  split; [|split].
  - unfold change. case_decide; [done|]. apply Hrerun. by destruct c.
  - unfold role_change. case_decide; [done|]. apply Hrerun. by destruct c.
  - destruct c as [ic so sid ss rs ref cl ts nt]. revert Ho.
    unfold orderly, tidy, advance. simpl.
    destruct nt as [|nt]; [done|]. simpl.
    destruct ts as [|tm [|tm' ts]]; [done| |done].
    rewrite !filter_cons, !filter_nil. by case_decide.
Qed.

(** X18: a client that is not the controller and has no timer pending
    sends no [scene:update], whatever local changes occur; and when a
    controller loses control while its timer is still pending, the timer
    is cancelled: the pending update is never sent, nor any later one. *)
Theorem no_update_without_control c t (evs : list (Z * (SceneState * R))) T :
  (isController c = false → timers c = [] → sent c evs T = []) ∧
  (isController c = true → orderly c = true →
   timers (role_change t false c) = [] ∧
   sent (role_change t false c) evs T = []).
Proof.
  split; [apply sent_without_control|].
  intros Hc Ho. unfold orderly in Ho. apply andb_true_iff in Ho as [Ht Hcl].
  assert (isController (role_change t false c) = false
          ∧ timers (role_change t false c) = []) as [Hc' Ht'].
  { unfold role_change. rewrite Hc. rewrite decide_False by done.
    destruct c as [ic so sid ss rs ref cl ts nt]. unfold tidy in Ht.
    simpl in *. destruct nt as [|nt]; [done|]. simpl in Ht.
    unfold rerun, effect, clear_pending, clearTimeout. simpl.
    destruct ts as [|tm [|tm' ts]]; [| |done].
    - destruct cl, ref as [[|id]|]; simpl; by rewrite ?filter_nil.
    - subst cl. destruct ref as [[|id]|]; [done| |done]. apply Nat.eqb_eq in Ht.
      simpl. rewrite filter_cons, filter_nil.
      rewrite decide_False by (intros Hn; by apply Hn). done. }
  split; [done|]. by apply sent_without_control.
Qed.
End debounce_more.

(** ** The client: pending viewers *)
Section viewers_facts.
Import Viewers.
Context {O : Type} (negotiate : string → option O).
Implicit Types (c : Client) (v : string) (vs l : list string).

Lemma set_add_elem v v' l : v' ∈ set_add v l ↔ v' = v ∨ v' ∈ l.
Proof.
  unfold set_add. case_bool_decide as Hin.
  - split; [by right | by intros [->|?]].
  - rewrite elem_of_app, list_elem_of_singleton. tauto.
Qed.

Lemma set_add_NoDup v l : NoDup l → NoDup (set_add v l).
Proof.
  intros Hnd. unfold set_add. case_bool_decide as Hin; [done|].
  apply NoDup_app. split; [done|]. split; [|apply NoDup_singleton].
  by intros x Hx ->%list_elem_of_singleton.
Qed.

Lemma queue_all_elem vs : ∀ l v, v ∈ queue_all vs l ↔ v ∈ l ∨ v ∈ vs.
Proof.
  unfold queue_all. induction vs as [|v0 vs IH]; intros l v; simpl.
  - rewrite elem_of_nil. tauto.
  - rewrite IH, set_add_elem, elem_of_cons. tauto.
Qed.

Lemma queue_all_NoDup vs : ∀ l, NoDup l → NoDup (queue_all vs l).
Proof.
  unfold queue_all. induction vs as [|v0 vs IH]; intros l Hnd; simpl; [done|].
  by apply IH, set_add_NoDup.
Qed.

Lemma queue_all_fresh vs : ∀ l,
  NoDup (l ++ vs) → queue_all vs l = l ++ vs.
Proof.
  unfold queue_all. induction vs as [|v0 vs IH]; intros l Hnd; simpl.
  - by rewrite app_nil_r.
  - unfold set_add. rewrite bool_decide_eq_false_2.
    + rewrite IH; rewrite <- app_assoc; done.
    + apply NoDup_app in Hnd as (_ & Hdisj & _). intros Hin.
      apply (Hdisj _ Hin). left.
Qed.

Lemma on_viewer_join_queues v c :
  isControllerRef c = true → canvasRef c = false →
  on_viewer_join negotiate v c
    = (with_pending (set_add v (pendingViewersRef c)) c, []).
Proof.
  intros Hc Hcv. unfold on_viewer_join, ensureLocalStream.
  by rewrite Hc, Hcv.
Qed.

Lemma viewer_joins_queue vs : ∀ c,
  isControllerRef c = true → canvasRef c = false →
  viewer_joins negotiate vs c
    = (with_pending (queue_all vs (pendingViewersRef c)) c, []).
Proof.
  induction vs as [|v vs IH]; intros c Hc Hcv; cbn [viewer_joins].
  - by destruct c.
  - rewrite on_viewer_join_queues by done. by rewrite IH.
Qed.

Lemma filter_all {A} (f : A → bool) (l : list A) :
  forallb f l = true → List.filter f l = l.
Proof.
  induction l as [|a l IH]; simpl; [done|].
  intros [Ha Hl]%andb_true_iff. rewrite Ha. f_equal. by apply IH.
Qed.

Lemma filter_NoDup {A} (f : A → bool) (l : list A) :
  NoDup l → NoDup (List.filter f l).
Proof.
  induction 1 as [|x l Hx Hnd IH]; simpl; [constructor|].
  destruct (f x); [|done]. constructor; [|done].
  intros Hin%list_elem_of_In. apply Hx.
  apply List.filter_In in Hin as [Hin _]. by apply list_elem_of_In.
Qed.

Lemma send_each_offers l : ∀ c,
  offer_to <$> (send_each negotiate l c).2
    = List.filter (negotiated negotiate) l ∧
  (∀ v o, EmitOffer v o ∈ (send_each negotiate l c).2 → negotiate v = Some o) ∧
  pendingViewersRef (send_each negotiate l c).1 = pendingViewersRef c ∧
  localStreamRef (send_each negotiate l c).1 = localStreamRef c.
Proof.
  induction l as [|v l IH]; intros c; cbn [send_each].
  - split; [done|]. split; [|done]. by intros v o ?%elem_of_nil.
  - unfold sendOfferToViewer. cbn [List.filter].
    specialize (IH (createControllerPeerConnection v c)).
    destruct (send_each negotiate l (createControllerPeerConnection v c))
      as [c2 out] eqn:Hs.
    destruct IH as (Hto & Hneg & Hp & Hl).
    unfold negotiated at 1.
    destruct (negotiate v) as [o|] eqn:Hn; simpl; rewrite Hs; simpl.
    + split; [by f_equal|]. split; [|done].
      intros v' o' [[= -> ->]|Hin]%elem_of_cons; [done|]. by apply Hneg.
    + done.
Qed.

(** C9: on a controller client that has no canvas yet (so capture cannot
    start), every [webrtc:viewer-join] is put in the pending set and no
    offer goes out; the set keeps the ids in the order of their first
    arrival.  When the canvas arrives and capture starts, the set is
    emptied and [webrtc:offer] is sent, in that order, to the ids that
    were in it and whose negotiation ([createOffer], then
    [setLocalDescription]) succeeds: once to each, to no other id, each
    carrying the offer negotiated for that viewer.  An id whose
    negotiation fails leaves the set without an offer; when the
    negotiation succeeds for every queued id, each of them gets its
    offer. *)
Theorem pending_viewers_flushed c vs :
  isControllerRef c = true →
  canvasRef c = false →
  localStreamRef c = false →
  socketRef c = true →
  NoDup (pendingViewersRef c) →
  let queued := queue_all vs (pendingViewersRef c) in
  let joined := viewer_joins negotiate vs c in
  let ready := onCanvasReady negotiate joined.1 in
  joined.2 = [] ∧
  pendingViewersRef joined.1 = queued ∧
  (∀ v, v ∈ queued ↔ v ∈ pendingViewersRef c ∨ v ∈ vs) ∧
  (NoDup (pendingViewersRef c ++ vs) → queued = pendingViewersRef c ++ vs) ∧
  offer_to <$> ready.2 = List.filter (negotiated negotiate) queued ∧
  (forallb (negotiated negotiate) queued = true →
     offer_to <$> ready.2 = queued) ∧
  NoDup (offer_to <$> ready.2) ∧
  (∀ v o, EmitOffer v o ∈ ready.2 → negotiate v = Some o) ∧
  pendingViewersRef ready.1 = [] ∧
  localStreamRef ready.1 = true.
Proof.
  intros Hc Hcv Hls Hso Hnd. simpl.
  rewrite viewer_joins_queue by done. simpl.
  split; [done|]. split; [done|]. split; [apply queue_all_elem|].
  split; [apply queue_all_fresh|].
  unfold onCanvasReady, ensureLocalStream, flushPendingViewers. simpl.
  rewrite Hc, Hls, Hso. simpl.
  match goal with |- context [send_each negotiate ?l ?c0] =>
    pose proof (send_each_offers l c0) as (Hto & Hoff & Hp & Hl);
    destruct (send_each negotiate l c0) as [c2 out] end.
  simpl in *. rewrite Hto. split; [done|].
  split; [apply filter_all|].
  split; [by apply filter_NoDup, queue_all_NoDup|]. done.
Qed.
End viewers_facts.

(** ** The client: more on viewers and connections *)
Section viewers_more.
Import Viewers.
Context {O : Type} (negotiate : string → option O).
Implicit Types (c : Client) (v : string) (vs l : list string).

Lemma omap_keys_set_add {A} (m : list (string * A)) k a :
  OMap.keys (OMap.set k a m) = set_add k (OMap.keys m).
Proof.
  unfold set_add. case_bool_decide as Hin.
  - apply omap_keys_set_present. by apply omap_has_key.
  - rewrite omap_keys_set_absent.
    + unfold OMap.keys. by rewrite fmap_app.
    + destruct (OMap.get k m) eqn:Hg; [|done].
      exfalso. apply Hin. by eapply omap_get_key.
Qed.

Lemma on_viewer_join_live v c :
  isControllerRef c = true → canvasRef c = true → localStreamRef c = true →
  on_viewer_join negotiate v c
    = (createControllerPeerConnection v c,
       match negotiate v with Some o => [EmitOffer v o] | None => [] end).
Proof.
  intros Hc Hcv Hls. unfold on_viewer_join, ensureLocalStream, sendOfferToViewer.
  rewrite Hc, Hcv, Hls. simpl. by destruct (negotiate v).
Qed.

(** X19: on a controller client whose capture is running, every
    [webrtc:viewer-join] is answered on the spot: the offers go out in the
    order of the joins, one per join (a viewer that joins twice is offered
    twice), nobody is queued, and the connection map has one entry per
    distinct viewer, in the order of their first joins.  A join whose
    negotiation fails sends nothing but still leaves a connection entry. *)
Theorem live_viewer_joins c vs :
  isControllerRef c = true →
  canvasRef c = true →
  localStreamRef c = true →
  (forallb (negotiated negotiate) vs = true →
     offer_to <$> (viewer_joins negotiate vs c).2 = vs) ∧
  pendingViewersRef (viewer_joins negotiate vs c).1 = pendingViewersRef c ∧
  OMap.keys (peerConnectionsRef (viewer_joins negotiate vs c).1)
    = queue_all vs (OMap.keys (peerConnectionsRef c)) ∧
  (∀ v, negotiate v = None →
     (on_viewer_join negotiate v c).2 = [] ∧
     OMap.get v (peerConnectionsRef (on_viewer_join negotiate v c).1)
       = Some (nextPc c)).
Proof.
  intros Hc Hcv Hls. split; [|split; [|split]].
  - revert c Hc Hcv Hls. induction vs as [|v vs IH]; intros c Hc Hcv Hls Hall;
      cbn [viewer_joins]; [done|].
    simpl in Hall. apply andb_true_iff in Hall as [Hv Hall].
    rewrite on_viewer_join_live by done.
    specialize (IH (createControllerPeerConnection v c) Hc Hcv Hls Hall).
    destruct (viewer_joins negotiate vs (createControllerPeerConnection v c))
      as [c2 out]. simpl in *. unfold negotiated in Hv.
    destruct (negotiate v); [|done]. simpl. by f_equal.
  - revert c Hc Hcv Hls. induction vs as [|v vs IH]; intros c Hc Hcv Hls;
      cbn [viewer_joins]; [done|].
    rewrite on_viewer_join_live by done.
    specialize (IH (createControllerPeerConnection v c) Hc Hcv Hls).
    by destruct (viewer_joins negotiate vs (createControllerPeerConnection v c)).
  - revert c Hc Hcv Hls. induction vs as [|v vs IH]; intros c Hc Hcv Hls;
      cbn [viewer_joins]; [done|].
    rewrite on_viewer_join_live by done.
    specialize (IH (createControllerPeerConnection v c) Hc Hcv Hls).
    destruct (viewer_joins negotiate vs (createControllerPeerConnection v c))
      as [c2 out]. simpl in *. rewrite IH. unfold queue_all. simpl.
    by rewrite omap_keys_set_add.
  - intros v Hn. rewrite on_viewer_join_live by done. rewrite Hn. simpl.
    split; [done|]. apply omap_get_set_eq.
Qed.

Lemma send_each_nil c : send_each negotiate [] c = (c, []).
Proof. done. Qed.

(** X20: whatever the client has been through, a change to the viewer
    role empties the pending set and the connection map and stops the
    stream, and when control comes back and the canvas is ready, nothing is
    sent: viewers that were queued or connected before the loss get no
    offer unless they join again. *)
Theorem role_loss_forgets_viewers c :
  let lost := step negotiate (EvRole false) c in
  lost.2 = [] ∧
  pendingViewersRef lost.1 = [] ∧
  peerConnectionsRef lost.1 = [] ∧
  localStreamRef lost.1 = false ∧
  (steps negotiate [EvRole false; EvRole true; EvCanvasReady] c).2 = [].
Proof.
  destruct c as [ic cv ls so pv pcs n]. simpl.
  repeat (split; [done|]).
  unfold role_effects, onCanvasReady, ensureLocalStream, flushPendingViewers,
    stopLocalStream, closeControllerPeers. simpl.
  destruct cv, so; simpl; done.
Qed.

Lemma coherent_spec c :
  coherent c = true ↔
  NoDup (pendingViewersRef c) ∧
  NoDup (OMap.keys (peerConnectionsRef c)) ∧
  (localStreamRef c = true → canvasRef c = true ∧ pendingViewersRef c = []) ∧
  (isControllerRef c = false →
   localStreamRef c = false ∧ pendingViewersRef c = [] ∧ peerConnectionsRef c = []).
Proof.
  unfold coherent. rewrite !andb_true_iff, !bool_decide_eq_true. split.
  - intros [[[Hp Hk] Hs] Hr]. split; [done|]. split; [done|]. split.
    + intros Hls. rewrite Hls in Hs. apply andb_true_iff in Hs as [Hcv Hpe].
      by apply bool_decide_eq_true in Hpe.
    + intros Hic. rewrite Hic in Hr. apply andb_true_iff in Hr as [Hr Hpc].
      apply andb_true_iff in Hr as [Hls Hpe]. apply negb_true_iff in Hls.
      by apply bool_decide_eq_true in Hpe, Hpc.
  - intros (Hp & Hk & Hs & Hr). split; [split; [done|]|].
    + destruct (localStreamRef c); [|done]. destruct (Hs eq_refl) as [-> ->].
      by rewrite bool_decide_eq_true_2.
    + destruct (isControllerRef c); [done|]. destruct (Hr eq_refl) as (-> & -> & ->).
      by rewrite !bool_decide_eq_true_2.
Qed.

Lemma send_each_frame l : ∀ c,
  isControllerRef (send_each negotiate l c).1 = isControllerRef c ∧
  canvasRef (send_each negotiate l c).1 = canvasRef c ∧
  localStreamRef (send_each negotiate l c).1 = localStreamRef c ∧
  socketRef (send_each negotiate l c).1 = socketRef c ∧
  pendingViewersRef (send_each negotiate l c).1 = pendingViewersRef c ∧
  (NoDup (OMap.keys (peerConnectionsRef c)) →
   NoDup (OMap.keys (peerConnectionsRef (send_each negotiate l c).1))).
Proof.
  induction l as [|v l IH]; intros c; cbn [send_each]; [done|].
  unfold sendOfferToViewer.
  specialize (IH (createControllerPeerConnection v c)).
  destruct (negotiate v);
    destruct (send_each negotiate l (createControllerPeerConnection v c))
      as [c2 out]; simpl in *;
    destruct IH as (-> & -> & -> & -> & -> & Hk);
    (repeat (split; [done|])); intros Hnd; apply Hk; by apply omap_wf_set.
Qed.

Lemma ensureLocalStream_coherent c :
  coherent c = true → socketRef c = true → isControllerRef c = true →
  coherent (ensureLocalStream negotiate c).1.1 = true ∧
  socketRef (ensureLocalStream negotiate c).1.1 = true ∧
  isControllerRef (ensureLocalStream negotiate c).1.1 = true ∧
  canvasRef (ensureLocalStream negotiate c).1.1 = canvasRef c ∧
  ((ensureLocalStream negotiate c).2 = true →
   localStreamRef (ensureLocalStream negotiate c).1.1 = true) ∧
  ((ensureLocalStream negotiate c).2 = false →
   canvasRef c = false ∧ (ensureLocalStream negotiate c).1.1 = c).
Proof.
  intros Hco Hso Hic. unfold ensureLocalStream.
  destruct (canvasRef c) eqn:Hcv; simpl; [|done].
  destruct (localStreamRef c) eqn:Hls; simpl; [done|].
  unfold flushPendingViewers. simpl. rewrite Hso. simpl.
  apply coherent_spec in Hco as (Hp & Hk & _ & _).
  match goal with |- context [send_each negotiate ?l ?c0] =>
    pose proof (send_each_frame l c0) as (H1 & H2 & H3 & H4 & H5 & H6);
    destruct (send_each negotiate l c0) as [c2 out] end.
  simpl in *. split; [|by rewrite H1].
  apply coherent_spec. rewrite H1, H2, H3, H5. split; [apply NoDup_nil_2|].
  split; [by apply H6|]. split; [done | by rewrite Hic].
Qed.

Lemma step_coherent e c :
  coherent c = true → socketRef c = true →
  coherent (step negotiate e c).1 = true ∧ socketRef (step negotiate e c).1 = true.
Proof.
  intros Hco Hso. destruct e as [v| |b]; simpl.
  - (* webrtc:viewer-join *)
    unfold on_viewer_join. destruct (isControllerRef c) eqn:Hic; simpl; [|done].
    pose proof (ensureLocalStream_coherent c Hco Hso Hic)
      as (Hco' & Hso' & Hic' & Hcv' & Hyes & Hno).
    destruct (ensureLocalStream negotiate c) as [[c1 out] stream]. simpl in *.
    destruct stream; simpl.
    + unfold sendOfferToViewer.
      assert (coherent (createControllerPeerConnection v c1) = true) as Hc2.
      { apply coherent_spec in Hco' as (Hp & Hk & Hs & Hr). apply coherent_spec.
        simpl. split; [done|]. split; [by apply omap_wf_set|].
        split; [done|]. by rewrite ?Hic'. }
      by destruct (negotiate v).
    + destruct (Hno eq_refl) as [Hcv ->].
      apply coherent_spec in Hco as (Hp & Hk & Hs & Hr). split; [|done].
      apply coherent_spec. simpl. split; [by apply set_add_NoDup|].
      split; [done|]. split; [|by rewrite ?Hic].
      intros Hls. destruct (Hs Hls) as [Hcvt _]. congruence.
  - (* the canvas is ready *)
    unfold onCanvasReady. simpl. destruct (isControllerRef c) eqn:Hic.
    + match goal with |- context [ensureLocalStream negotiate ?c0] =>
        assert (coherent c0 = true) as Hc0 end.
      { apply coherent_spec in Hco as (Hp & Hk & Hs & Hr). apply coherent_spec.
        simpl. split; [done|]. split; [done|]. split; [|by rewrite ?Hic].
        intros Hls. by destruct (Hs Hls) as [_ ->]. }
      match goal with |- context [ensureLocalStream negotiate ?c0] =>
        pose proof (ensureLocalStream_coherent c0 Hc0 Hso eq_refl)
          as (Hco' & Hso' & _);
        destruct (ensureLocalStream negotiate c0) as [[c1 out] stream] end.
      done.
    + simpl. split; [|done].
      apply coherent_spec in Hco as (Hp & Hk & Hs & Hr). apply coherent_spec.
      simpl. destruct (Hr Hic) as (Hls & Hpe & Hpc).
      split; [done|]. split; [done|]. split; [by rewrite ?Hls | done].
  - (* the role changes *)
    unfold role_effects. destruct b; simpl.
    + match goal with |- context [ensureLocalStream negotiate ?c0] =>
        assert (coherent c0 = true) as Hc0 end.
      { apply coherent_spec in Hco as (Hp & Hk & Hs & Hr). by apply coherent_spec. }
      match goal with |- context [ensureLocalStream negotiate ?c0] =>
        pose proof (ensureLocalStream_coherent c0 Hc0 Hso eq_refl)
          as (Hco' & Hso' & _);
        destruct (ensureLocalStream negotiate c0) as [[c1 out] stream] end.
      done.
    + split; [|done]. apply coherent_spec. simpl.
      split; [apply NoDup_nil_2|]. split; [apply NoDup_nil_2 | done].
Qed.

(** X21: from the moment the component mounts, through any sequence of
    viewer joins, canvas arrivals and role changes, the pending set and
    the connection map never hold an id twice, a stream exists only with a
    canvas and then nobody is pending, and a client that is not the
    controller holds no stream, no pending viewer and no outbound
    connection. *)
Theorem viewers_state_coherent (es : list Ev) c :
  coherent c = true →
  socketRef c = true →
  coherent (steps negotiate es c).1 = true.
Proof.
  revert c. induction es as [|e es IH]; intros c Hco Hso; cbn [steps]; [done|].
  destruct (step_coherent e c Hco Hso) as [Hco' Hso'].
  destruct (step negotiate e c) as [c1 out]. specialize (IH c1 Hco' Hso').
  by destruct (steps negotiate es c1).
Qed.
End viewers_more.

(** ** The client: gestures, roster, scene and uploads *)
Section gesture_facts.
Import Debounce Gesture.

Lemma updater_photo g prev :
  updater g prev = PHOTO → prev = PHOTO ∨ (prev = CAROUSEL ∧ g = PHOTO).
Proof. destruct g, prev; cbv; intros; auto; discriminate. Qed.

Lemma updater_carousel g prev :
  updater g prev = CAROUSEL → prev = CAROUSEL ∨ g = CAROUSEL.
Proof. destruct g, prev; cbv; intros; auto; discriminate. Qed.

(** X22: the scene state under gestures.  [PHOTO] is entered only from
    [CAROUSEL], and left only for [CAROUSEL]; between the other states
    every gesture takes effect at once.  So a controller that ends in
    [PHOTO] either started there or went through [CAROUSEL] and then
    received a [PHOTO] gesture.  On a client that is not the controller
    gestures change nothing, and one recognised gesture triggers at most
    one change, none when the score is low. *)
Theorem photo_only_through_carousel (gs : list SceneState) (s0 : SceneState) :
  (∀ g prev, updater g prev = PHOTO →
     prev = PHOTO ∨ (prev = CAROUSEL ∧ g = PHOTO)) ∧
  (∀ g, updater g PHOTO = (if bool_decide (g = CAROUSEL) then CAROUSEL else PHOTO)) ∧
  (∀ g prev, g ≠ PHOTO → prev ≠ PHOTO → updater g prev = g) ∧
  (gestures true gs s0 = PHOTO →
     s0 = PHOTO ∨ (CAROUSEL ∈ s0 :: gs ∧ PHOTO ∈ gs)) ∧
  gestures false gs s0 = s0 ∧
  (∀ confident name,
     (length (dispatch confident name) ≤ 1)%nat ∧ dispatch false name = []).
Proof.
  split; [apply updater_photo|]. split; [by intros []|].
  split; [by intros [] []|]. split; [|split].
  - revert s0. unfold gestures. induction gs as [|g gs IH]; intros s0; simpl.
    + by left.
    + unfold handleGesture at 2. simpl. intros Hf.
      destruct (IH _ Hf) as [Hp | [Hc Hph]].
      * apply updater_photo in Hp as [-> | [-> ->]]; [by left|].
        right. split; [left | left].
      * right. split; [|by right].
        apply elem_of_cons in Hc as [Hc | Hc].
        -- symmetry in Hc. apply updater_carousel in Hc as [-> | ->];
             [left | right; left].
        -- by do 2 right.
  - unfold gestures. induction gs as [|g gs IH]; simpl; [done|]. apply IH.
  - intros confident name. split; [|done]. unfold dispatch.
    destruct confident; [|simpl; lia].
    destruct (String.eqb name "Open_Palm") eqn:H1;
      destruct (String.eqb name "Closed_Fist") eqn:H2;
      destruct (String.eqb name "Victory") eqn:H3;
      destruct (String.eqb name "Pointing_Up") eqn:H4; simpl; try lia;
      apply String.eqb_eq in H1 || apply String.eqb_eq in H2
      || apply String.eqb_eq in H3; subst; discriminate.
Qed.
End gesture_facts.

Section roster_facts.
Import Server Roster.
Context {V : Type}.

Lemma filter_id_app (l : list User) (u : User) (uid : string) :
  filter (fun x => user_id x = uid) (l ++ [u])
    = filter (fun x => user_id x = uid) l
      ++ (if decide (user_id u = uid) then [u] else []).
Proof. rewrite filter_app, filter_cons, filter_nil. by case_decide. Qed.

(** X23: [session:user-left] takes every entry with that id off the user
    list, keeps the other entries in their order, and drops the pending
    control request of that id and no other; a [session:user-joined]
    followed by the [session:user-left] of the same user, who was not
    listed before, gives the list back. *)
Theorem user_left_undoes_user_joined (u : User) (uid : string) (r : State) :
  listed uid (on_user_left uid r) = 0 ∧
  (∀ other, other ≠ uid →
     filter (fun x => user_id x = other) (users (on_user_left uid r))
       = filter (fun x => user_id x = other) (users r)) ∧
  pendingRequests (on_user_left uid r) !! uid = None ∧
  (∀ other, other ≠ uid →
     pendingRequests (on_user_left uid r) !! other = pendingRequests r !! other) ∧
  (listed (user_id u) r = 0 →
   users (on_user_left (user_id u) (on_user_joined u r)) = users r).
Proof.
  unfold listed, on_user_left, on_user_joined. simpl.
  split; [|split; [|split; [|split]]].
  - induction (users r) as [|x l IH]; [done|].
    rewrite filter_cons. case_decide; [|done].
    rewrite filter_cons. by case_decide.
  - intros other Hne. induction (users r) as [|x l IH]; [done|].
    rewrite !filter_cons. case_decide as Hx.
    + rewrite filter_cons. case_decide; by rewrite IH.
    + rewrite decide_False by congruence. done.
  - apply lookup_delete_eq.
  - intros other Hne. by apply lookup_delete_ne.
  - intros Hl. rewrite filter_app, filter_cons, filter_nil.
    rewrite decide_False by (intros Hn; by apply Hn). rewrite app_nil_r.
    induction (users r) as [|x l IH]; [done|].
    rewrite filter_cons in Hl. rewrite filter_cons.
    case_decide as Hx; [done|]. rewrite decide_True by done.
    f_equal. by apply IH.
Qed.

(** X24: when a socket that is already a user of a session joins it
    again, the server sends [session:user-joined] to the rest of the room
    once more, and a client that handles it lists that user one more time
    than before: twice, if it listed the user once. *)
Theorem rejoin_lists_user_again (now : Z) (sender sessionId name : string)
    (σ : @Registry V) (s : @Session V) (r : State) :
  OMap.get sessionId σ = Some s →
  OMap.has sender (Server.users s) = true →
  ∃ e, (handle now sender (Join sessionId name) σ).2 !! 1
         = Some (SocketTo sessionId sender, e) ∧
       listed sender (apply e r) = S (listed sender r).
Proof.
  intros Hg Hm. exists (SessionUserJoined (mkUser sender name)).
  split.
  - simpl. unfold on_join, getSession. by rewrite Hg.
  - unfold listed. simpl. rewrite filter_id_app. simpl.
    rewrite decide_True by done. rewrite length_app. simpl. lia.
Qed.

(** X28: after a socket has accepted control, the server tells the room
    [control:changed].  A client with another (non-empty) id, for which
    the controller it knew was another socket or none, handles it and in
    the render that follows asks for the stream with
    [webrtc:viewer-join], which the server forwards to the new
    controller.  The new controller itself asks nothing, and neither does
    a client that already knew this controller: for it no dependency of
    the effect has changed. *)
Theorem viewers_ask_new_controller (now now' : Z) (holder u sessionId : string)
    (σ : @Registry V) (s : @Session V) (r : State) :
  OMap.get sessionId σ = Some s →
  holder ≠ EmptyString →
  userId r = Some u →
  u ≠ EmptyString →
  u ≠ holder →
  controllerId r ≠ Some holder →
  let after := handle now holder (ControlAccept sessionId) σ in
  after.2 !! 0 = Some (IoTo sessionId, ControlChanged holder) ∧
  announce (V:=V) true sessionId r (apply (V:=V) (ControlChanged holder) r)
    = [ViewerJoinReq sessionId] ∧
  handle now' u (ViewerJoinReq sessionId) after.1
    = (after.1, [ (IoTo holder, ViewerJoin u) ]) ∧
  (∀ r0, userId r0 = Some holder →
     announce (V:=V) true sessionId r0 (apply (V:=V) (ControlChanged holder) r0)
       = []) ∧
  (∀ r0, controllerId r0 = Some holder →
     announce (V:=V) true sessionId r0 (apply (V:=V) (ControlChanged holder) r0)
       = []).
Proof.
  intros Hg Hh Hu Hne Hd Hold. simpl. unfold on_control_accept. rewrite Hg. simpl.
  apply String.eqb_neq in Hh, Hne.
  split; [done|]. split; [|split; [|split]].
  - unfold announce. rewrite bool_decide_eq_false_2.
    + unfold announce_body, isController. simpl. rewrite Hu, Hh. simpl.
      rewrite Hne. simpl. rewrite bool_decide_eq_false_2; [done|]. congruence.
    + unfold deps. simpl. intros [= Hc _]. by apply Hold.
  - unfold on_viewer_join. rewrite omap_get_set_eq. simpl. by rewrite Hh.
  - intros r0 H0. unfold announce. case_bool_decide; [done|].
    unfold announce_body, isController. simpl. rewrite H0, Hh. simpl.
    rewrite ?Hh. simpl. by rewrite bool_decide_eq_true_2.
  - intros r0 H0. unfold announce. rewrite bool_decide_eq_true_2; [done|].
    unfold deps, isController. simpl. by rewrite H0.
Qed.
End roster_facts.

Section negotiation_facts.
Import Negotiation.
Context {O A : Type} (negotiate : string → option O) (answer_of : O → option A).

(** X29: an offer and its answer.  On a controller whose capture runs, a
    [webrtc:viewer-join] of viewer [v] makes a connection for [v] and
    sends the offer to [v]; the viewer that handles the relayed offer
    replaces its inbound connection by one for the sender and answers to
    the sender; and when the relayed answer comes back, the controller
    finds the connection it made for [v] and sets the remote description
    on that one.  A controller ignores offers, a viewer ignores answers,
    and an answer from an id without a connection is ignored. *)
Theorem offer_answer_round_trip (ctrl v : string) (offer : O) (answer : A)
    (c : Viewers.Client) (w : Viewer) (seen : list nat) :
  Viewers.isControllerRef c = true →
  Viewers.canvasRef c = true →
  Viewers.localStreamRef c = true →
  negotiate v = Some offer →
  answer_of offer = Some answer →
  v_isControllerRef w = false →
  let joined := Viewers.on_viewer_join negotiate v c in
  joined.2 = [Viewers.EmitOffer v offer] ∧
  (∀ now (σ : @Server.Registry (O + A)),
     Server.handle now ctrl (Server.WebrtcOfferReq v (inl offer)) σ
       = (σ, [ (Server.IoTo v, Server.WebrtcOffer ctrl (inl offer)) ])) ∧
  on_offer answer_of ctrl offer w
    = (mkViewer false (Some ctrl), [EmitAnswer ctrl answer]) ∧
  (∀ now (σ : @Server.Registry (O + A)),
     Server.handle now v (Server.WebrtcAnswerReq ctrl (inr answer)) σ
       = (σ, [ (Server.IoTo ctrl, Server.WebrtcAnswer v (inr answer)) ])) ∧
  on_answer v answer (mkController joined.1 seen)
    = mkController joined.1 (Viewers.nextPc c :: seen) ∧
  on_offer answer_of ctrl offer (mkViewer true (viewerPeerRef w))
    = (mkViewer true (viewerPeerRef w), []) ∧
  (∀ other, OMap.get other (Viewers.peerConnectionsRef joined.1) = None →
     on_answer other answer (mkController joined.1 seen)
       = mkController joined.1 seen) ∧
  (∀ from (k : Controller), Viewers.isControllerRef (base k) = false →
     on_answer from answer k = k).
Proof.
  intros Hc Hcv Hls Hn Ha Hw. simpl.
  unfold Viewers.on_viewer_join, Viewers.ensureLocalStream,
    Viewers.sendOfferToViewer.
  rewrite Hc, Hcv, Hls, Hn. simpl.
  split; [done|]. split; [done|]. split.
  { unfold on_offer. by rewrite Hw, Ha. }
  split; [done|]. split; [|split; [done|split]].
  - unfold on_answer. simpl. rewrite Hc. simpl. by rewrite omap_get_set_eq.
  - intros other Ho. unfold on_answer. simpl. rewrite Hc. simpl. by rewrite Ho.
  - intros from k Hk. unfold on_answer. by rewrite Hk.
Qed.
End negotiation_facts.

Section receiver_facts.
Import Receiver.
Context {R P : Type}.
Implicit Types (d b : @Snapshot R P) (w : @View R P).

(** X25: on the controller [scene:state] and [photos:update] change
    nothing.  On a viewer, handling two deltas one after the other gives
    what handling their shallow merge gives, and handling a delta after a
    [scene:sync] gives what a [scene:sync] with the merged blob gives: a
    viewer that follows the deltas and a newcomer that receives the merged
    blob show the same scene. *)
Theorem deltas_and_sync_agree d d' b w :
  (isControllerRef w = true →
     on_scene_state d w = w ∧ ∀ p, on_photos_update p w = w) ∧
  (isControllerRef w = false →
     on_scene_state d' (on_scene_state d w) = on_scene_state (merge d' d) w ∧
     on_scene_state d (on_scene_sync (Some b) w)
       = on_scene_sync (Some (merge d b)) w).
Proof.
  destruct w as [ic ss rs ps], d as [ds dr dp], d' as [ds' dr' dp'],
    b as [bs br bp].
  unfold on_scene_state, on_photos_update, on_scene_sync, merge, or_keep.
  simpl. split; intros ->; simpl; [done|].
  split; by destruct ds, dr, dp, ds', dr', dp', bs, br, bp.
Qed.
End receiver_facts.

Section upload_facts.
Import Upload.
Context {D : Type} (compress : string * D → option string).

(** X26: an upload emits at most one [photos:update].  When it emits one,
    the client is the controller, the message names the session and
    carries, in the order of the files, the compressed form of every file
    whose type starts with [image/] and of no other file, the list is not
    empty, and it is the list the client shows from then on.  The photos
    shown change only when the upload completes; with no image among the
    files the status is left at [COMPRESSING IMAGES...]. *)
Theorem upload_sends_images (isController socket : bool) (sessionId : string)
    (files : list (string * D)) (st : State) :
  let images := List.filter (fun f : string * D => String.prefix "image/" f.1) files in
  let r := handleUploadFiles compress isController socket sessionId files st in
  (length r.2 ≤ 1)%nat ∧
  (∀ sid ps, EmitPhotos sid ps ∈ r.2 →
     isController = true ∧ sid = sessionId ∧ ps ≠ [] ∧
     mapM compress images = Some ps ∧ length ps = length images ∧
     photos r.1 = ps) ∧
  (photos r.1 ≠ photos st → aiStatus r.1 = "UPLOAD COMPLETE") ∧
  (isController = true → images = [] →
     r = (mkState (photos st) "COMPRESSING IMAGES...", [])).
Proof.
  simpl. unfold handleUploadFiles.
  destruct isController; simpl.
  2: { split; [lia|]. split; [by intros sid ps ?%elem_of_nil|]. done. }
  destruct (mapM compress (List.filter _ files)) as [ps|] eqn:Hm; simpl.
  2: { split; [lia|]. split; [by intros sid ps ?%elem_of_nil|].
       split; [done|]. intros _ He. rewrite He in Hm. done. }
  destruct ps as [|p ps]; simpl.
  { split; [lia|]. split; [by intros sid ps ?%elem_of_nil|]. done. }
  split; [destruct socket; simpl; lia|]. split; [|split; [done|]].
  - intros sid ps' Hin. destruct socket; [|by apply elem_of_nil in Hin].
    apply list_elem_of_singleton in Hin as [= -> ->].
    split; [done|]. split; [done|]. split; [done|]. split; [done|].
    split; [|done]. symmetry. by apply length_mapM in Hm.
  - intros _ He. rewrite He in Hm. done.
Qed.
End upload_facts.

Section wire_facts.
Import Wire.
Context {R P : Type}.

(** X27: from the controller to the screens.  When the server handles the
    [scene:update] that the controller's debounce sends, it broadcasts the
    same two fields to the rest of the room and stores them merged over
    the blob that the session's [sceneState] held (over no field when it
    was null).  A viewer that handles the broadcast shows the controller's
    scene state and rotation speed and keeps its photos; a newcomer that
    receives the stored blob shows the same scene state and rotation
    speed, with the photos that the session's [sceneState] held before the
    update, if it held some. *)
Theorem update_reaches_viewers (now : Z) (ctrl : string)
    (u : @Debounce.SceneUpdate R) (σ : @Server.Registry (@Field R P))
    (s : @Server.Session (@Field R P)) (w : @Receiver.View R P) :
  OMap.get (Debounce.upd_sessionId u) σ = Some s →
  Server.controllerId s = Some ctrl →
  Receiver.isControllerRef w = false →
  let before := default ∅ (Server.sceneState s) in
  let blob := payload u ∪ before in
  let viewer := Receiver.on_scene_state (decode (payload u)) w in
  let newcomer := Receiver.on_scene_sync (Some (decode blob)) w in
  Server.handle now ctrl (encode u) σ
    = (OMap.set (Debounce.upd_sessionId u)
         (Server.set_sceneState (Some blob) s) σ,
       [ (Server.SocketTo (Debounce.upd_sessionId u) ctrl,
          Server.SceneState (payload u)) ]) ∧
  Receiver.sceneState viewer = Some (Debounce.upd_sceneState u) ∧
  Receiver.rotationSpeed viewer = Some (Debounce.upd_rotationSpeed u) ∧
  Receiver.photos viewer = Receiver.photos w ∧
  Receiver.sceneState newcomer = Receiver.sceneState viewer ∧
  Receiver.rotationSpeed newcomer = Receiver.rotationSpeed viewer ∧
  Receiver.photos newcomer
    = Receiver.or_keep (Receiver.snap_photos (decode before))
        (Receiver.photos w).
Proof.
  intros Hg Hc Hw. simpl.
  unfold Server.on_scene_update, Server.is_controller.
  rewrite Hg, bool_decide_eq_true_2 by done. simpl. split; [done|].
  unfold Receiver.on_scene_state. rewrite Hw. simpl.
  assert (payload (P:=P) u !! "sceneState"
          = Some (FScene (Debounce.upd_sceneState u))) as Hs by reflexivity.
  assert (payload (P:=P) u !! "rotationSpeed"
          = Some (FSpeed (Debounce.upd_rotationSpeed u))) as Hr by reflexivity.
  assert (payload (P:=P) u !! "photos" = None) as Hp by reflexivity.
  rewrite Hs, Hr, Hp. simpl.
  rewrite (lookup_union_Some_l _ _ _ _ Hs), (lookup_union_Some_l _ _ _ _ Hr).
  rewrite (lookup_union_r _ _ _ Hp). done.
Qed.
End wire_facts.

(** ** The theorems at the sample states *)
Section samples.
Import Samples.

Lemma controller_is_member_witness :
  accepts_by_members [] trace0 = true ∧
  controller_invariant (run [] trace0).1 ∧ one_controller (run [] trace0).1.
Proof. split; [reflexivity | apply (controller_is_member trace0); reflexivity]. Defined.

(** C1, as the claim states it, fails: after Ann has opened session [s],
    socket [x], which never joined, sends [control:accept]; the
    controller of [s] is then [x], which is not a key of [users]. *)
Lemma controller_is_member_counterexample :
  ¬ controller_invariant (run [] trace1).1.
Proof.
  intros Hinv.
  pose proof (Hinv "s" (mkSession [("a", mkUser "a" "Ann")] (Some "x") None 0)
                eq_refl "x" eq_refl) as Hx.
  vm_compute in Hx. discriminate.
Qed.

Lemma control_accept_unconditional_witness :
  OMap.get "s" registry0 = Some session0 ∧
  (handle 7 "b" (ControlAccept "s") registry0).2
    = [ (IoTo "s", ControlChanged "b");
        (SocketEmit "b", SceneSync (Some blob0)) ].
Proof.
  split; [reflexivity|].
  apply (control_accept_unconditional 7 "b" "s" registry0 session0).
  reflexivity.
Defined.

Lemma controller_disconnect_witness :
  wf_registry registry0 = true ∧
  OMap.get "s" registry0 = Some session0 ∧
  controllerId session0 = Some "a" ∧
  OMap.has "a" (users session0) = true ∧
  OMap.get "s" (handle 7 "a" Disconnect registry0).1
    = Some (mkSession [("b", mkUser "b" "Bob")] (Some "b") (Some blob0) 0) ∧
  (leave "a" "s" session0).2
    = [ (SocketTo "s" "a", SessionUserLeft "a");
        (IoTo "s", ControlChanged "b");
        (IoTo "b", SceneSync (Some blob0)) ].
Proof.
  split; [reflexivity|]. split; [reflexivity|]. split; [reflexivity|].
  split; [reflexivity|].
  apply (controller_disconnect 7 "a" "s" registry0 session0); reflexivity.
Defined.

Lemma unauthorized_dropped_witness :
  (OMap.get "s" registry0 = None ∨
   ∃ s, OMap.get "s" registry0 = Some s ∧ controllerId s ≠ Some "b") ∧
  handle 7 "b" (SceneUpdate "s" {[ "sceneState" := "CHAOS" ]}) registry0
    = (registry0, []).
Proof.
  assert (OMap.get "s" registry0 = None ∨
          ∃ s, OMap.get "s" registry0 = Some s ∧ controllerId s ≠ Some "b")
    as Hcase.
  { right. exists session0. split; [reflexivity | discriminate]. }
  split; [exact Hcase|].
  apply (unauthorized_dropped 7 "b" "s" registry0 Hcase).
Defined.

(** Ann, the controller, sends [{sceneState: 'CHAOS'}] over a blob that
    holds [sceneState] and [rotationSpeed]: the first is replaced, the
    second is still [0.5], and [photos] is still absent. *)
Lemma scene_update_shallow_merge_witness :
  OMap.get "s" registry0 = Some session0 ∧
  controllerId session0 = Some "a" ∧
  sceneState session0
    = Some {[ "sceneState" := "FORMED"; "rotationSpeed" := "0.5" ]} ∧
  ∃ blob,
    OMap.get "s" (handle 7 "a" (SceneUpdate "s" {[ "sceneState" := "CHAOS" ]})
                    registry0).1
      = Some (mkSession (users session0) (controllerId session0) (Some blob)
                (createdAt session0)) ∧
    blob !! "sceneState" = Some "CHAOS" ∧
    blob !! "rotationSpeed" = Some "0.5" ∧
    blob !! "photos" = None.
Proof.
  split; [reflexivity|]. split; [reflexivity|]. split; [reflexivity|].
  destruct (scene_update_shallow_merge 7 "a" "s" registry0 session0
              {[ "sceneState" := "CHAOS" ]} "photo" eq_refl eq_refl)
    as [(blob & Hget & Hdelta & Hkept) _].
  exists blob. split; [exact Hget|]. split; [|split].
  - apply Hdelta. reflexivity.
  - rewrite (Hkept "rotationSpeed" eq_refl). reflexivity.
  - rewrite (Hkept "photos" eq_refl). reflexivity.
Defined.

Lemma rejoin_idempotent_witness :
  OMap.get "s" registry0 = Some session0 ∧
  OMap.has "b" (users session0) = true ∧
  controllerId session0 = Some "a" ∧
  "a" ≠ EmptyString ∧
  OMap.keys (handle 7 "b" (Join "s" "Bobby") registry0).1 = OMap.keys registry0 ∧
  (OMap.get "b" (users session0) = Some (mkUser "b" "Bobby") →
   (handle 7 "b" (Join "s" "Bobby") registry0).1 = registry0).
Proof.
  split; [reflexivity|]. split; [reflexivity|]. split; [reflexivity|].
  split; [discriminate|].
  pose proof (rejoin_idempotent 7 "b" "s" "Bobby" "a" registry0 session0
                eq_refl eq_refl eq_refl ltac:(discriminate)) as (Hk & _ & Hs).
  split; [exact Hk | exact Hs].
Defined.

Lemma debounce_single_message_witness :
  Debounce.isController controller0 = true ∧
  Debounce.socketRef controller0 = true ∧
  Debounce.tidy controller0 = true ∧
  Debounce.burst controller0 burst0 = true ∧
  last burst0 = Some (249%Z, (Debounce.FORMED, 2%Z)) ∧
  Debounce.sent controller0 burst0 1000
    = [ (399%Z, Debounce.mkSceneUpdate "s" Debounce.FORMED 2%Z) ].
Proof.
  split; [reflexivity|]. split; [reflexivity|]. split; [reflexivity|].
  split; [reflexivity|]. split; [reflexivity|].
  apply (debounce_single_message controller0 burst0 249 (Debounce.FORMED, 2%Z));
    [reflexivity | reflexivity | reflexivity | reflexivity | reflexivity | lia].
Defined.

Lemma pending_viewers_flushed_witness :
  Viewers.isControllerRef waiting = true ∧
  Viewers.canvasRef waiting = false ∧
  Viewers.localStreamRef waiting = false ∧
  Viewers.socketRef waiting = true ∧
  NoDup (Viewers.pendingViewersRef waiting) ∧
  Viewers.queue_all ["v1"; "v2"; "v1"] (Viewers.pendingViewersRef waiting)
    = ["v1"; "v2"] ∧
  forallb (Viewers.negotiated offer_for) ["v1"; "v2"] = true ∧
  Viewers.offer_to <$>
    (Viewers.onCanvasReady offer_for
       (Viewers.viewer_joins offer_for ["v1"; "v2"; "v1"] waiting).1).2
    = ["v1"; "v2"].
Proof.
  split; [reflexivity|]. split; [reflexivity|]. split; [reflexivity|].
  split; [reflexivity|]. split; [apply NoDup_nil_2|]. split; [reflexivity|].
  split; [reflexivity|].
  apply (pending_viewers_flushed offer_for waiting ["v1"; "v2"; "v1"]
           eq_refl eq_refl eq_refl eq_refl (NoDup_nil_2 (A:=string))).
  reflexivity.
Defined.

(** C9, as the claim states it, fails when the negotiation for a queued
    viewer fails.  With no canvas, [v1], [v2] and [v3] join and are
    queued; the negotiation for [v2] rejects.  When the canvas arrives the
    set is emptied, [v1] and [v3] get their offers, and [v2] gets none:
    [flushPendingViewers] swallows the rejection. *)
Lemma pending_viewers_flushed_counterexample :
  Viewers.pendingViewersRef
    (Viewers.viewer_joins offer_but_v2 ["v1"; "v2"; "v3"] waiting).1
    = ["v1"; "v2"; "v3"] ∧
  (Viewers.onCanvasReady offer_but_v2
     (Viewers.viewer_joins offer_but_v2 ["v1"; "v2"; "v3"] waiting).1).2
    = [ Viewers.EmitOffer "v1" "offer:v1"; Viewers.EmitOffer "v3" "offer:v3" ] ∧
  Viewers.pendingViewersRef
    (Viewers.onCanvasReady offer_but_v2
       (Viewers.viewer_joins offer_but_v2 ["v1"; "v2"; "v3"] waiting).1).1
    = [] ∧
  ¬ (Viewers.offer_to <$>
       (Viewers.onCanvasReady offer_but_v2
          (Viewers.viewer_joins offer_but_v2 ["v1"; "v2"; "v3"] waiting).1).2
     = Viewers.pendingViewersRef
         (Viewers.viewer_joins offer_but_v2 ["v1"; "v2"; "v3"] waiting).1).
Proof.
  repeat (split; [reflexivity|]).
  intros Hall. vm_compute in Hall. discriminate.
Qed.

(** C3, as the claim states it, fails for a controller that is not one of
    the users: after [trace1] the controller of [s] is socket [x]; when
    [x] disconnects, Ann remains, yet she is not made controller, nothing
    is emitted and the registry is what it was. *)
Lemma controller_disconnect_counterexample :
  (run [] trace1).1 = registry1 ∧
  wf_registry registry1 = true ∧
  OMap.get "s" registry1 = Some session1 ∧
  controllerId session1 = Some "x" ∧
  OMap.delete "x" (users session1) = [("a", mkUser "a" "Ann")] ∧
  ¬ (OMap.get "s" (handle 2 "x" Disconnect registry1).1
       = Some (mkSession [("a", mkUser "a" "Ann")] (Some "a") None 0) ∧
     (leave "x" "s" session1).2
       = [ (SocketTo "s" "x", SessionUserLeft "x");
           (IoTo "s", ControlChanged "a");
           (IoTo "a", SceneSync None) ]) ∧
  handle 2 "x" Disconnect registry1 = (registry1, []).
Proof.
  repeat (split; [reflexivity|]). split; [|reflexivity].
  intros [Hg _]. vm_compute in Hg. discriminate.
Qed.
End samples.

Section more_samples.
Import Samples.

Lemma reachable_registry_shape_witness :
  named_senders trace0 = true ∧ NoDup (OMap.keys (run [] trace0).1).
Proof.
  split; [reflexivity|]. apply (reachable_registry_shape trace0). reflexivity.
Defined.

Lemma unknown_session_ignored_witness :
  OMap.get "nowhere" registry0 = None ∧
  handle 7 "b" (ControlAccept "nowhere") registry0 = (registry0, []).
Proof.
  split; [reflexivity|].
  apply (unknown_session_ignored 7 "b" "nowhere" registry0). reflexivity.
Defined.

Lemma reading_run_keeps_registry_witness :
  forallb (fun st : Step => reads_only st.2) trace3 = true ∧
  (run registry0 trace3).1 = registry0.
Proof.
  split; [reflexivity|].
  apply (reading_run_keeps_registry trace3 registry0). reflexivity.
Defined.

Lemma other_sessions_untouched_witness :
  session_of (ControlAccept (V:=string) "s") = Some "s" ∧
  "t" ≠ "s" ∧
  OMap.get "t" (handle 7 "b" (ControlAccept "s") registry2).1
    = OMap.get "t" registry2.
Proof.
  split; [reflexivity|]. split; [discriminate|].
  apply (other_sessions_untouched 7 "b" "s" "t" (ControlAccept "s") registry2);
    [reflexivity | discriminate].
Defined.

Lemma disconnect_of_stranger_witness :
  stranger "z" registry2 = true ∧
  handle 7 "z" Disconnect registry2 = (registry2, []).
Proof.
  split; [reflexivity|]. apply (disconnect_of_stranger 7 "z" registry2).
  reflexivity.
Defined.

Lemma join_then_disconnect_restores_witness :
  wf_registry registry2 = true ∧
  stranger "z" registry2 = true ∧
  (∀ s, OMap.get "s" registry2 = Some s → controllerId s ≠ Some "z") ∧
  (handle 8 "z" Disconnect (handle 7 "z" (Join "s" "Zoe") registry2).1).1
    = registry2.
Proof.
  assert (∀ s, OMap.get "s" registry2 = Some s → controllerId s ≠ Some "z")
    as Hc by (intros s [= <-]; discriminate).
  split; [reflexivity|]. split; [reflexivity|]. split; [exact Hc|].
  apply (join_then_disconnect_restores 7 8 "z" "s" "Zoe" registry2);
    [reflexivity | reflexivity | exact Hc].
Defined.

(** Bob, who is not the controller, leaves the first of two sessions; he
    is not a user of the second. *)
Lemma member_disconnect_witness :
  wf_registry registry2 = true ∧
  OMap.get "s" registry2 = Some session0 ∧
  OMap.has "b" (users session0) = true ∧
  controllerId session0 ≠ Some "b" ∧
  (∀ other s0, other ≠ "s" → OMap.get other registry2 = Some s0 →
     OMap.has "b" (users s0) = false) ∧
  (handle 7 "b" Disconnect registry2).2
    = [ (SocketTo "s" "b", SessionUserLeft "b") ].
Proof.
  assert (∀ other s0, other ≠ "s" → OMap.get other registry2 = Some s0 →
            OMap.has "b" (users s0) = false) as Hothers.
  { intros other s0 Hne Hg. simpl in Hg.
    destruct (decide (other = "s")) as [Heq|_]; [destruct (Hne Heq)|].
    destruct (decide (other = "t")) as [_|_]; [|discriminate Hg].
    injection Hg as <-. reflexivity. }
  split; [reflexivity|]. split; [reflexivity|]. split; [reflexivity|].
  split; [discriminate|]. split; [exact Hothers|].
  apply (member_disconnect 7 "b" "s" registry2 session0);
    [reflexivity | reflexivity | reflexivity | discriminate | exact Hothers].
Defined.

Lemma joins_keep_arrival_order_witness :
  OMap.get "n" registry0 = None ∧
  "p" ≠ EmptyString ∧
  NoDup ("p" :: [("q", "Quinn"); ("r", "Rob")].*1) ∧
  OMap.get "n"
    (run registry0 (joins 9 "n" [("p", "Pia"); ("q", "Quinn"); ("r", "Rob")])).1
    = Some (mkSession
              [("p", mkUser "p" "Pia"); ("q", mkUser "q" "Quinn");
               ("r", mkUser "r" "Rob")]
              (Some "p") None 9).
Proof.
  assert (NoDup ("p" :: [("q", "Quinn"); ("r", "Rob")].*1)) as Hnd.
  { refine (bool_decide_unpack _ _). vm_compute. exact I. }
  split; [reflexivity|]. split; [discriminate|]. split; [exact Hnd|].
  apply (joins_keep_arrival_order 9 "n" "p" "Pia"
           [("q", "Quinn"); ("r", "Rob")] registry0);
    [reflexivity | discriminate | exact Hnd].
Defined.

Lemma accept_transfers_authority_witness :
  OMap.get "s" registry0 = Some session0 ∧
  "b" ≠ EmptyString ∧
  handle 8 "a" (SceneUpdate "s" delta0)
    (handle 7 "b" (ControlAccept "s") registry0).1
    = ((handle 7 "b" (ControlAccept "s") registry0).1, []).
Proof.
  split; [reflexivity|]. split; [discriminate|].
  pose proof (accept_transfers_authority 7 8 "b" "s" registry0 session0
                eq_refl ltac:(discriminate)) as [Hdrop _].
  apply Hdrop. discriminate.
Defined.

(** Ann's [{sceneState: 'CHAOS'}] over a blob with [sceneState] and
    [rotationSpeed]: both are fields of the blob afterwards. *)
Lemma blob_never_shrinks_witness :
  wf_registry registry0 = true ∧
  OMap.get "s" registry0 = Some session0 ∧
  OMap.get "s" (handle 7 "a" (SceneUpdate "s" delta0) registry0).1
    = Some session0_chaos ∧
  sceneState session0
    = Some {[ "sceneState" := "FORMED"; "rotationSpeed" := "0.5" ]} ∧
  ∃ b', sceneState session0_chaos = Some b' ∧
        is_Some (b' !! "sceneState") ∧ is_Some (b' !! "rotationSpeed").
Proof.
  split; [reflexivity|]. split; [reflexivity|]. split; [reflexivity|].
  split; [reflexivity|].
  destruct (blob_never_shrinks 7 "a" "s" (SceneUpdate "s" delta0) registry0
              session0 session0_chaos blob0 eq_refl eq_refl eq_refl eq_refl)
    as (b' & Hb' & Hkept).
  exists b'. split; [exact Hb'|].
  split; apply Hkept; eexists; reflexivity.
Defined.

Lemma only_controller_writes_blob_witness :
  wf_registry registry0 = true ∧
  OMap.get "s" registry0 = Some session0 ∧
  OMap.get "s" (handle 7 "a" (SceneUpdate "s" delta0) registry0).1
    = Some session0_chaos ∧
  sceneState session0_chaos ≠ sceneState session0 ∧
  controllerId session0 = Some "a".
Proof.
  assert (sceneState session0_chaos ≠ sceneState session0) as Hne.
  { intros Hb. apply (f_equal (fun o => o ≫= (.!! "sceneState"))) in Hb.
    vm_compute in Hb. discriminate. }
  split; [reflexivity|]. split; [reflexivity|]. split; [reflexivity|].
  split; [exact Hne|].
  apply (only_controller_writes_blob 7 "a" "s" (SceneUpdate "s" delta0)
           registry0 session0 session0_chaos);
    [reflexivity | reflexivity | reflexivity | exact Hne].
Defined.

Lemma scene_updates_compose_witness :
  OMap.get "s" registry0 = Some session0 ∧
  controllerId session0 = Some "a" ∧
  (handle 8 "a" (SceneUpdate "s" delta0)
     (handle 7 "a" (SceneUpdate "s" delta0) registry0).1).1
    = (handle 7 "a" (SceneUpdate "s" delta0) registry0).1.
Proof.
  split; [reflexivity|]. split; [reflexivity|].
  apply (scene_updates_compose 7 8 "a" "s" registry0 session0 delta0 delta0);
    reflexivity.
Defined.

Lemma photos_and_scene_commute_witness :
  OMap.get "s" registry0 = Some session0 ∧
  controllerId session0 = Some "a" ∧
  delta0 !! "photos" = None ∧
  (handle 8 "a" (SceneUpdate "s" delta0)
     (handle 7 "a" (PhotosUpdateReq "s" "p1,p2") registry0).1).1
    = (handle 8 "a" (PhotosUpdateReq "s" "p1,p2")
         (handle 7 "a" (SceneUpdate "s" delta0) registry0).1).1.
Proof.
  split; [reflexivity|]. split; [reflexivity|]. split; [reflexivity|].
  apply (photos_and_scene_commute 7 8 "a" "s" registry0 session0 delta0 "p1,p2");
    reflexivity.
Defined.

Lemma join_keeps_controller_witness :
  wf_registry registry0 = true ∧
  OMap.get "s" registry0 = Some session0 ∧
  OMap.get "s" (handle 7 "z" (Join "s" "Zoe") registry0).1
    = Some (mkSession
              (OMap.set "z" (mkUser "z" "Zoe") (users session0))
              (controllerId session0) (sceneState session0) (createdAt session0)).
Proof.
  split; [reflexivity|]. split; [reflexivity|].
  apply (join_keeps_controller 7 "z" "s" "Zoe" registry0 session0); reflexivity.
Defined.

Lemma control_handover_witness :
  OMap.get "s" registry0 = Some session0 ∧
  controllerId session0 = Some "a" ∧
  "a" ≠ EmptyString ∧
  run registry0 [ (1%Z, "b", ControlRequest "s");
                  (2%Z, "a", ControlOfferReq "s" "b");
                  (3%Z, "b", ControlDecline "s" "a") ]
    = (registry0,
       [ (IoTo "a", ControlRequested "b" (name_or session0 "b" "Guest"));
         (IoTo "b", ControlOffer "a" (name_or session0 "a" "Host"));
         (IoTo "a", ControlDeclined "b" (name_or session0 "b" "Guest")) ]).
Proof.
  split; [reflexivity|]. split; [reflexivity|]. split; [discriminate|].
  apply (control_handover 1 2 3 "a" "b" "s" registry0 session0);
    [reflexivity | reflexivity | discriminate].
Defined.

Lemma debounce_sends_survivors_witness :
  Debounce.isController controller0 = true ∧
  Debounce.socketRef controller0 = true ∧
  Debounce.tidy controller0 = true ∧
  Debounce.changes controller0 ((0%Z, (Debounce.CHAOS, 1%Z)) :: changes0) = true ∧
  ((default (0%Z, (Debounce.CHAOS, 1%Z)) (last changes0)).1 + 150 <= 1000)%Z ∧
  Debounce.sent controller0 ((0%Z, (Debounce.CHAOS, 1%Z)) :: changes0) 1000
    = [ (250%Z, Debounce.mkSceneUpdate "s" Debounce.CHAOS 2%Z);
        (450%Z, Debounce.mkSceneUpdate "s" Debounce.FORMED 2%Z);
        (650%Z, Debounce.mkSceneUpdate "s" Debounce.CHAOS 2%Z) ].
Proof.
  split; [reflexivity|]. split; [reflexivity|]. split; [reflexivity|].
  split; [reflexivity|]. split; [vm_compute; discriminate|].
  apply (debounce_sends_survivors controller0 0 (Debounce.CHAOS, 1%Z) changes0 1000);
    [reflexivity | reflexivity | reflexivity | reflexivity
    | vm_compute; discriminate].
Defined.

Lemma live_viewer_joins_witness :
  Viewers.isControllerRef live = true ∧
  Viewers.canvasRef live = true ∧
  Viewers.localStreamRef live = true ∧
  OMap.keys (Viewers.peerConnectionsRef
               (Viewers.viewer_joins offer_for ["v1"; "v2"; "v1"] live).1)
    = ["v1"; "v2"].
Proof.
  split; [reflexivity|]. split; [reflexivity|]. split; [reflexivity|].
  apply (live_viewer_joins offer_for live ["v1"; "v2"; "v1"]); reflexivity.
Defined.

Lemma viewers_state_coherent_witness :
  Viewers.coherent Viewers.mounted = true ∧
  Viewers.socketRef Viewers.mounted = true ∧
  Viewers.coherent (Viewers.steps offer_for events0 Viewers.mounted).1 = true.
Proof.
  split; [reflexivity|]. split; [reflexivity|].
  apply (viewers_state_coherent offer_for events0 Viewers.mounted); reflexivity.
Defined.

Lemma rejoin_lists_user_again_witness :
  OMap.get "s" registry0 = Some session0 ∧
  OMap.has "b" (users session0) = true ∧
  ∃ e, (handle 7 "b" (Join "s" "Bobby") registry0).2 !! 1
         = Some (SocketTo "s" "b", e) ∧
       Roster.listed "b" (Roster.apply e roster0) = S (Roster.listed "b" roster0).
Proof.
  split; [reflexivity|]. split; [reflexivity|].
  apply (rejoin_lists_user_again 7 "b" "s" "Bobby" registry0 session0 roster0);
    reflexivity.
Defined.

(** Ann's update [{sceneState: 'CAROUSEL', rotationSpeed: 3}] over a blob
    that holds two photos: the server keeps the photos in the blob, Bob's
    screen keeps the photo it shows, and a newcomer gets the two photos of
    the blob. *)
Lemma update_reaches_viewers_witness :
  OMap.get (Debounce.upd_sessionId update0) registry_w = Some session_w ∧
  controllerId session_w = Some "a" ∧
  Receiver.isControllerRef view0 = false ∧
  sceneState session_w = Some {[ "photos" := Wire.FPhotos ["p1"; "p2"] ]} ∧
  (∃ blob,
     (OMap.get "s" (handle 7 "a" (Wire.encode update0) registry_w).1
        ≫= sceneState) = Some blob ∧
     blob !! "photos" = Some (Wire.FPhotos ["p1"; "p2"]) ∧
     blob !! "sceneState" = Some (Wire.FScene Debounce.CAROUSEL)) ∧
  Receiver.sceneState
    (Receiver.on_scene_state (Wire.decode (Wire.payload update0)) view0)
    = Some Debounce.CAROUSEL ∧
  Receiver.photos
    (Receiver.on_scene_state (Wire.decode (Wire.payload update0)) view0)
    = Some ["d1"] ∧
  Receiver.photos
    (Receiver.on_scene_sync
       (Some (Wire.decode
                (Wire.payload update0
                 ∪ {[ "photos" := Wire.FPhotos ["p1"; "p2"] ]}))) view0)
    = Some ["p1"; "p2"].
Proof.
  split; [reflexivity|]. split; [reflexivity|]. split; [reflexivity|].
  split; [reflexivity|].
  destruct (update_reaches_viewers 7 "a" update0 registry_w session_w view0
              eq_refl eq_refl eq_refl)
    as (Hsrv & Hs & _ & Hp & _ & _ & Hn).
  split; [|split; [exact Hs | split; [exact Hp|]]].
  - eexists. split; [rewrite Hsrv; reflexivity|]. split; reflexivity.
  - etransitivity; [exact Hn | reflexivity].
Defined.

(** Bob accepts control of Ann's session; Ann's client, which knew Ann as
    controller, asks Bob for the stream. *)
Lemma viewers_ask_new_controller_witness :
  OMap.get "s" registry0 = Some session0 ∧
  "b" ≠ EmptyString ∧
  Roster.userId roster0 = Some "a" ∧
  "a" ≠ EmptyString ∧
  "a" ≠ "b" ∧
  Roster.controllerId roster0 ≠ Some "b" ∧
  Roster.announce (V:=string) true "s" roster0
    (Roster.apply (V:=string) (ControlChanged "b") roster0)
    = [ViewerJoinReq "s"] ∧
  handle 8 "a" (ViewerJoinReq "s")
    (handle 7 "b" (ControlAccept "s") registry0).1
    = ((handle 7 "b" (ControlAccept "s") registry0).1,
       [ (IoTo "b", ViewerJoin "a") ]).
Proof.
  split; [reflexivity|]. split; [discriminate|]. split; [reflexivity|].
  split; [discriminate|]. split; [discriminate|]. split; [discriminate|].
  destruct (viewers_ask_new_controller 7 8 "b" "a" "s" registry0 session0
              roster0 eq_refl) as (_ & Hask & Hfwd & _);
    [discriminate | reflexivity | discriminate | discriminate | discriminate|].
  split; [exact Hask | exact Hfwd].
Defined.

Lemma offer_answer_round_trip_witness :
  Viewers.isControllerRef live = true ∧
  Viewers.canvasRef live = true ∧
  Viewers.localStreamRef live = true ∧
  offer_for "v1" = Some "offer:v1" ∧
  answer_for "offer:v1" = Some "answer:offer:v1" ∧
  Negotiation.v_isControllerRef (Negotiation.mkViewer false None) = false ∧
  Negotiation.on_offer answer_for "a" "offer:v1" (Negotiation.mkViewer false None)
    = (Negotiation.mkViewer false (Some "a"),
       [Negotiation.EmitAnswer "a" "answer:offer:v1"]).
Proof.
  split; [reflexivity|]. split; [reflexivity|]. split; [reflexivity|].
  split; [reflexivity|]. split; [reflexivity|]. split; [reflexivity|].
  apply (offer_answer_round_trip offer_for answer_for "a" "v1"
           "offer:v1" "answer:offer:v1" live (Negotiation.mkViewer false None) []);
    reflexivity.
Defined.
End more_samples.
